(** * automike: the browser-driven reconciliation service

    A shallow embedding of [BrowserService] (src/services/browser-service.js)
    and of the part of [ConfigService] it calls, followed by the properties
    of the service that the design document states.

    Conventions of the embedding.
    - A JavaScript string is a [string]; its characters are 8-bit code
      units, so the white space of [String.prototype.trim] and of
      [parseFloat] is the part of ECMAScript's white space below 256.
    - A JavaScript Number is a [Number]: NaN, an infinity, or a finite
      binary64 value kept as sign, odd mantissa and binary exponent.
    - The service instance, the statistics objects it allocates and the
      actions it performs on the outside world are the fields of [World];
      an [async] method is a function in the monad [M] of state and
      exceptions.
    - What the browser answers (puppeteer's promises resolving or
      rejecting, the DOM that a [page.evaluate] closure sees) is the
      script a method receives as an argument.
    - Calls to the logger have no effect on the service and are left out. *)

From Stdlib Require Import ZArith NArith String Ascii List Bool Lia DecimalString.
From stdpp Require Import base option list.
From Equations Require Import Equations.
Import ListNotations.

Set Default Proof Using "Type".

Local Open Scope string_scope.

(** ** JavaScript strings *)

Module JsString.

(** WhiteSpace and LineTerminator code units below 256:
    TAB, LF, VT, FF, CR, SP and NBSP. *)
Definition is_white_space (c : ascii) : bool :=
  let n := nat_of_ascii c in
  ((9 <=? n) && (n <=? 13) || (n =? 32) || (n =? 160))%nat.

Fixpoint trimStart (s : string) : string :=
  match s with
  | String c t => if is_white_space c then trimStart t else s
  | EmptyString => EmptyString
  end.

Fixpoint trimEnd (s : string) : string :=
  match s with
  | String c t =>
      match trimEnd t with
      | EmptyString => if is_white_space c then EmptyString else String c EmptyString
      | t' => String c t'
      end
  | EmptyString => EmptyString
  end.

(** [s.trim()] *)
Definition trim (s : string) : string := trimEnd (trimStart s).

Fixpoint drop (n : nat) (s : string) : string :=
  match n, s with
  | S n', String _ t => drop n' t
  | _, _ => s
  end.

(** [s.replace(pat, repl)] with a string pattern: only the first
    occurrence of [pat] is replaced. *)
Fixpoint replace (pat repl s : string) : string :=
  if String.prefix pat s then repl ++ drop (String.length pat) s
  else match s with
       | String c t => String c (replace pat repl t)
       | EmptyString => EmptyString
       end.

(** [s.includes(pat)] *)
Fixpoint includes (s pat : string) : bool :=
  String.prefix pat s ||
  match s with
  | String _ t => includes t pat
  | EmptyString => false
  end.

Definition lower (c : ascii) : ascii :=
  let n := nat_of_ascii c in
  if ((65 <=? n) && (n <=? 90))%nat then ascii_of_nat (n + 32) else c.

(** [s.toLowerCase()] on the letters A-Z. *)
Fixpoint toLowerCase (s : string) : string :=
  match s with
  | String c t => String (lower c) (toLowerCase t)
  | EmptyString => EmptyString
  end.

Definition is_digit (c : ascii) : bool :=
  let n := nat_of_ascii c in ((48 <=? n) && (n <=? 57))%nat.

Definition digit_value (c : ascii) : Z := Z.of_nat (nat_of_ascii c) - 48.

(** The longest prefix of decimal digits, and the rest. *)
Fixpoint span_digits (s : string) : string * string :=
  match s with
  | String c t =>
      if is_digit c then let (d, r) := span_digits t in (String c d, r)
      else (EmptyString, s)
  | EmptyString => (EmptyString, EmptyString)
  end.

(** The integer a string of decimal digits denotes, most significant
    digit first, continuing from [acc]. *)
Fixpoint digits_value (acc : Z) (s : string) : Z :=
  match s with
  | String c t => digits_value (10 * acc + digit_value c) t
  | EmptyString => acc
  end.

End JsString.

(** ** JavaScript Numbers *)

Module JsNumber.

(** [Finite s m e] is (-1)^s * m * 2^e. The values the functions below
    produce are canonical: [m] is odd, or [m = 0] and [e = 0]. *)
Inductive Number : Type :=
| NaN
| Infinity (negative : bool)
| Finite (negative : bool) (m : N) (e : Z).

(** Remove the trailing zero bits of a mantissa. *)
Fixpoint strip (p : positive) (e : Z) : positive * Z :=
  match p with
  | xO p' => strip p' (e + 1)
  | _ => (p, e)
  end.

Definition canonical (negative : bool) (m e : Z) : Number :=
  match m with
  | Zpos p => let (p', e') := strip p e in Finite negative (Npos p') e'
  | _ => Finite negative 0 0
  end.

(** The integer nearest to [num / den], ties to even ([0 < den]). *)
Definition div_half_even (num den : Z) : Z :=
  let q := (num / den)%Z in
  let r := (num mod den)%Z in
  if (2 * r <? den)%Z then q
  else if (den <? 2 * r)%Z then (q + 1)%Z
  else if Z.even q then q else (q + 1)%Z.

(** The binary64 value nearest to (-1)^negative * n / d, for [0 <= n]
    and [0 < d]: round to nearest, ties to even, 53 bits of precision,
    least exponent -1074 (subnormals), overflow to infinity. *)
Definition round_binary64 (negative : bool) (n d : Z) : Number :=
  if (n <=? 0)%Z then Finite negative 0 0
  else
    let e0 := (Z.log2 n - Z.log2 d)%Z in
    (* floor (log2 (n / d)) is e0 or e0 - 1 *)
    let below :=
      if (0 <=? e0)%Z then (n <? d * 2 ^ e0)%Z else (n * 2 ^ (- e0) <? d)%Z in
    let e := if below then (e0 - 1)%Z else e0 in
    let ulp := (Z.max e (-1022) - 52)%Z in
    let num := (n * 2 ^ Z.max 0 (- ulp))%Z in
    let den := (d * 2 ^ Z.max 0 ulp)%Z in
    let m := div_half_even num den in
    if (1024 <=? Z.log2 m + ulp)%Z then Infinity negative
    else canonical negative m ulp.

(** The Number a numeric literal [n / d] of the program text denotes. *)
Definition literal (n d : Z) : Number := round_binary64 false n d.

(** [x === y] on Numbers: NaN differs from everything, the two zeros
    are equal. *)
Definition strict_eq (x y : Number) : bool :=
  match x, y with
  | Infinity a, Infinity b => Bool.eqb a b
  | Finite s m e, Finite s' m' e' =>
      (N.eqb m 0 && N.eqb m' 0) || (Bool.eqb s s' && N.eqb m m' && Z.eqb e e')
  | _, _ => false
  end.

Import JsString.

(** An optional sign: whether it is a minus, and the rest. *)
Definition sign (s : string) : bool * string :=
  match s with
  | String "+" t => (false, t)
  | String "-" t => (true, t)
  | _ => (false, s)
  end.

(** The value of an ExponentPart at the head of [s], 0 when there is
    none (an "e" that no digit follows is not part of the literal). *)
Definition exponent (s : string) : Z :=
  match s with
  | String c t =>
      if (Ascii.eqb c "e" || Ascii.eqb c "E")%bool then
        let (neg, t') := sign t in
        let (ds, _) := span_digits t' in
        match ds with
        | EmptyString => 0%Z
        | _ => if neg then (- digits_value 0 ds)%Z else digits_value 0 ds
        end
      else 0%Z
  | EmptyString => 0%Z
  end.

(** [parseFloat(s)] for a string: leading white space is skipped, the
    longest prefix that is a StrDecimalLiteral is read, and its
    mathematical value is rounded to a Number; NaN when no prefix is
    one. *)
Definition parseFloat (input : string) : Number :=
  let (neg, s1) := sign (trimStart input) in
  if String.prefix "Infinity" s1 then Infinity neg
  else
    let (ip, s2) := span_digits s1 in
    let (fp, s3) :=
      match s2 with
      | String "." t => span_digits t
      | _ => (EmptyString, s2)
      end in
    match ip, fp with
    | EmptyString, EmptyString => NaN
    | _, _ =>
        let ex := (exponent s3 - Z.of_nat (String.length fp))%Z in
        round_binary64 neg
          (digits_value 0 (ip ++ fp) * 10 ^ Z.max 0 ex)
          (10 ^ Z.max 0 (- ex))
    end.

(** A value handed to [parseFloat]. *)
Inductive JsValue : Type :=
| VNumber (x : Number)
| VString (s : string)
| VNull
| VUndefined.

(** [parseFloat(v)] first converts [v] to a string. For a Number,
    Number::toString gives a decimal literal that reads back as the
    same Number (and "NaN", "Infinity", "-Infinity" for those), except
    that -0 prints as "0". [null] and [undefined] print as words that
    start no literal. *)
Definition parseFloat_value (v : JsValue) : Number :=
  match v with
  | VNumber (Finite _ 0%N _) => Finite false 0 0
  | VNumber (Finite s m e) => canonical s (Z.of_N m) e
  | VNumber x => x
  | VString s => parseFloat s
  | VNull | VUndefined => NaN
  end.

End JsNumber.

(** ** The service and its world *)

Module Service.

Import JsString JsNumber.

(** *** Values *)

(** A thrown value: an [Error] with its message. *)
Record Error : Type := { message : string }.

(** How an awaited promise settles, and how a method completes. *)
Inductive Completion (A : Type) : Type :=
| Normal (a : A)
| Throw (e : Error).
Arguments Normal {A} a.
Arguments Throw {A} e.

Definition cmap {A B} (f : A -> B) (c : Completion A) : Completion B :=
  match c with
  | Normal a => Normal (f a)
  | Throw e => Throw e
  end.

(** [this.stats] *)
Record Stats : Type := {
  totalRevisados : nat;
  totalConCosto : nat;
  totalAceptados : nat
}.

Definition zero_stats : Stats :=
  {| totalRevisados := 0; totalConCosto := 0; totalAceptados := 0 |}.

(** The three [++] statements. *)
Definition incr_totalRevisados (s : Stats) : Stats :=
  {| totalRevisados := S (totalRevisados s);
     totalConCosto := totalConCosto s;
     totalAceptados := totalAceptados s |}.

Definition incr_totalConCosto (s : Stats) : Stats :=
  {| totalRevisados := totalRevisados s;
     totalConCosto := S (totalConCosto s);
     totalAceptados := totalAceptados s |}.

Definition incr_totalAceptados (s : Stats) : Stats :=
  {| totalRevisados := totalRevisados s;
     totalConCosto := totalConCosto s;
     totalAceptados := S (totalAceptados s) |}.

(** A string the program builds: written out, or the rendering of a
    Number by [Intl.NumberFormat('es-MX', {style: 'currency',
    currency: 'MXN'})], which is kept symbolic. *)
Inductive Text : Type :=
| Plain (s : string)
| CurrencyMXN (x : Number).

(** The object the search closure returns. [None] is an absent property. *)
Record SearchResult : Type := {
  costo : option Text;
  estatus : option string;
  notas : option string;
  fechaRegistro : option string;
  servicio : option string;
  subservicio : option string;
  validacion : option string;
  hayDatos : option bool;
  costosCoinciden : option bool
}.

(** A reference to an object of the store. *)
Definition loc : Type := nat.

(** What [searchExpediente] returns: the properties of the result
    object spread into a new object, and [stats], which is a reference
    to the service's statistics object and not a copy of it. *)
Record Outcome : Type := {
  fields : SearchResult;
  out_stats : loc
}.

Record Credentials : Type := { username : string; password : string }.

Inductive Browser : Type := BrowserProcess (id : nat).
Inductive Page : Type := PageTab (id : nat).

(** *** What the service does to the outside *)

Inductive Selector : Type :=
| InputUsername      (* input[formcontrolname='username'] *)
| InputPassword      (* input[formcontrolname='password'] *)
| ButtonSubmit       (* button[type='submit'] *)
| InputPlaceholder   (* input[placeholder='No. Expediente:*'] *)
| InputExpediente    (* input[formcontrolname='expediente'] *)
| InputMat           (* input.mat-mdc-input-element *)
| InputText          (* input[type='text'] *)
| ButtonBuscar       (* button:has-text('Buscar') *)
| ResultsOrNone.     (* table tbody tr, .no-results *)

(** The closures handed to [page.evaluate]. *)
Inductive Closure : Type :=
| PasswordFieldAbsent
| ClearInput
| SearchRow
| ClickAcceptButton
| ClickConfirmButton.

Inductive Action : Type :=
| Launch (executablePath : string)
| NewPage
| SetDefaultNavigationTimeout (ms : N)
| SetDefaultTimeout (ms : N)
| Url
| Goto (url : string)
| WaitForSelector (sel : Selector) (timeout : N)
| WaitForNavigation
| TypeInto (sel : Selector) (text : string)
| Click (sel : Selector)
| Query (sel : Selector)
| ElementClick (clickCount : nat)
| KeyboardType (c : ascii)
| KeyboardPress (key : string)
| Evaluate (f : Closure)
| BrowserClose.

(** The methods whose invocations the history counts. *)
Inductive Method : Type :=
| MSearchExpediente
| MAceptarExpediente.

(** The history of a run: entries of these methods, calls to
    puppeteer, delays, and every value written to the current
    statistics object. *)
Inductive Event : Type :=
| Entered (m : Method)
| Did (a : Action)
| Delay (ms : N)
| Wrote (s : Stats).

(** *** The state *)

Record World : Type := {
  browser : option Browser;        (* this.browser *)
  page : option Page;              (* this.page *)
  stats : loc;                     (* this.stats *)
  statsObjects : list Stats;       (* the statistics objects allocated so far *)
  results : list SearchResult;     (* the result objects allocated so far *)
  log : list Event
}.

(** The timeouts and the retry policy are assigned by the constructor
    and by nothing else, so they are kept apart from the state. *)
Record Config : Type := {
  navigationTimeout : N;
  defaultTimeout : N;
  maxRetries : nat;
  retryDelay : N
}.

Definition default_config : Config :=
  {| navigationTimeout := 60000; defaultTimeout := 30000;
     maxRetries := 3; retryDelay := 2000 |}.

(** [new BrowserService()] *)
Definition constructor : World :=
  {| browser := None; page := None;
     stats := 0; statsObjects := [zero_stats];
     results := []; log := [] |}.

Definition with_browser (b : option Browser) (w : World) : World :=
  {| browser := b; page := page w; stats := stats w;
     statsObjects := statsObjects w; results := results w; log := log w |}.

Definition with_page (p : option Page) (w : World) : World :=
  {| browser := browser w; page := p; stats := stats w;
     statsObjects := statsObjects w; results := results w; log := log w |}.

Definition with_stats (l : loc) (objs : list Stats) (w : World) : World :=
  {| browser := browser w; page := page w; stats := l;
     statsObjects := objs; results := results w; log := log w |}.

Definition with_results (rs : list SearchResult) (w : World) : World :=
  {| browser := browser w; page := page w; stats := stats w;
     statsObjects := statsObjects w; results := rs; log := log w |}.

Definition logged (ev : Event) (w : World) : World :=
  {| browser := browser w; page := page w; stats := stats w;
     statsObjects := statsObjects w; results := results w;
     log := log w ++ [ev] |}.

(** The statistics object [this.stats] refers to. *)
Definition current_stats (w : World) : option Stats :=
  statsObjects w !! stats w.

(** *** The monad of state and exceptions *)

Definition M (A : Type) : Type := World -> Completion A * World.

Definition ret {A} (a : A) : M A := fun w => (Normal a, w).

Definition throw {A} (e : Error) : M A := fun w => (Throw e, w).

Definition bind {A B} (m : M A) (k : A -> M B) : M B :=
  fun w =>
    match m w with
    | (Normal a, w') => k a w'
    | (Throw e, w') => (Throw e, w')
    end.

(** [try { m } catch (e) { h e }] *)
Definition try_catch {A} (m : M A) (h : Error -> M A) : M A :=
  fun w =>
    match m w with
    | (Normal a, w') => (Normal a, w')
    | (Throw e, w') => h e w'
    end.

Declare Scope js_scope.
Delimit Scope js_scope with js.
Notation "x <- m ;; k" := (bind m (fun x => k))
  (at level 100, m at next level, right associativity) : js_scope.
Notation "m ;; k" := (bind m (fun _ => k))
  (at level 100, right associativity) : js_scope.
Local Open Scope js_scope.

Definition emit (ev : Event) : M unit := fun w => (Normal tt, logged ev w).

(** [await p] for a promise of the outside that settles as [c]. *)
Definition settle {A} (c : Completion A) : M A := fun w => (c, w).

(** [await this.delay(ms)] *)
Definition delay (ms : N) : M unit := emit (Delay ms).

(** Reading a property of [null]. *)
Definition type_error : Error :=
  {| message := "Cannot read properties of null" |}.

(** [this.page.a(...)]: a TypeError when [this.page] is null, else the
    call is made and settles as the script says. *)
Definition page_call {A} (a : Action) (answer : Completion A) : M A :=
  fun w =>
    match page w with
    | Some _ => (answer, logged (Did a) w)
    | None => (Throw type_error, w)
    end.

(** A call on an object the method holds (an element handle, the
    browser just launched). *)
Definition call {A} (a : Action) (answer : Completion A) : M A :=
  fun w => (answer, logged (Did a) w).

(** [this.stats.field++] *)
Definition update_stats (f : Stats -> Stats) : M unit :=
  fun w =>
    match statsObjects w !! stats w with
    | Some s =>
        (Normal tt,
         logged (Wrote (f s))
           (with_stats (stats w) (<[stats w := f s]> (statsObjects w)) w))
    | None => (Throw type_error, w)
    end.

(** A fresh result object, as [page.evaluate] deserializes one. *)
Definition new_result (r : SearchResult) : M loc :=
  fun w => (Normal (length (results w)), with_results (results w ++ [r]) w).

Definition read_result (l : loc) : M SearchResult :=
  fun w =>
    match results w !! l with
    | Some r => (Normal r, w)
    | None => (Throw type_error, w)
    end.

(** An assignment to, or a [delete] of, a property of a result object. *)
Definition write_result (l : loc) (f : SearchResult -> SearchResult) : M unit :=
  fun w =>
    match results w !! l with
    | Some r => (Normal tt, with_results (<[l := f r]> (results w)) w)
    | None => (Throw type_error, w)
    end.

(** *** What the outside answers *)

(** An element handle, and how clicking it settles. *)
Record ElementHandle : Type := { click : Completion unit }.

(** A button of the document as the accept closure sees it: whether it
    has a [.mat-mdc-button-touch-target] descendant, and the
    [cellIndex] of its closest [td], if it has one. *)
Record ButtonNode : Type := {
  touch_target : bool;
  closest_td : option nat
}.

(** The portal during [login]. *)
Record LoginScript : Type := {
  l_store : Completion (option Credentials);   (* store.get('credentials') *)
  l_goto : Completion unit;
  l_wait_username : Completion unit;
  l_wait_password : Completion unit;
  l_type_username : Completion unit;
  l_type_password : Completion unit;
  l_submit : Completion unit;
  l_navigation : Completion unit;
  l_password_field : Completion bool   (* is the password input in the document? *)
}.

(** The machine and the portal during [initialize]. *)
Record InitScript : Type := {
  i_browserPath : Completion string;   (* this.getBrowserPath() *)
  i_launch : Completion Browser;       (* puppeteer.launch(...) *)
  i_newPage : Completion Page;         (* browser.newPage() *)
  i_login : LoginScript
}.

(** The portal during one attempt of [searchExpediente]. *)
Record SearchScript : Type := {
  s_url : string;                                        (* page.url() *)
  s_goto : Completion unit;
  s_query : Selector -> Completion (option ElementHandle);   (* page.$(sel) *)
  s_clear : Completion unit;
  s_type : nat -> Completion unit;                       (* the i-th keyboard.type *)
  s_enter : Completion unit;                             (* keyboard.press inside the try *)
  s_enter_fallback : Completion unit;                    (* keyboard.press in its catch *)
  s_wait_results : Completion unit;
  s_row : Completion (option (list string));
    (* the evaluation of the search closure settles; when it resolves:
       the text of the cells of the first row of the table, if there
       is a row *)
  s_buttons : Completion (list ButtonNode);
    (* the buttons of the document, for the accept closure *)
  s_modal_buttons : Completion (list string)
    (* the text of the buttons of the overlay, for the confirm closure *)
}.

(** *** ConfigService *)

(** [getCredentials()]: what the store holds, [null] when reading it
    throws. *)
Definition getCredentials (stored : Completion (option Credentials))
  : option Credentials :=
  match stored with
  | Normal c => c
  | Throw _ => None
  end.

(** *** The closures evaluated in the page *)

(** The text of cell [i], trimmed; the empty string when there is no
    such cell: [cells[i]?.textContent?.trim() || '']. *)
Definition cell_text (cells : list string) (i : nat) : string :=
  match cells !! i with
  | Some t => trim t
  | None => ""
  end.

Definition tieneContenido (cells : list string) : bool :=
  match cells !! 2 with
  | Some t =>
      negb (String.eqb t "")
      && negb (String.eqb (trim t) "")
      && negb (String.eqb (trim t) "$0.00")
      && negb (String.eqb (trim t) "$0")
  | None => false
  end.

Definition no_data : SearchResult :=
  {| costo := None; estatus := None; notas := None; fechaRegistro := None;
     servicio := None; subservicio := None; validacion := None;
     hayDatos := Some false; costosCoinciden := Some false |}.

(** [cells[2].textContent.trim().replace('$', '').replace(',', '')] *)
Definition costoSistema (cells : list string) : string :=
  match cells !! 2 with
  | Some t => replace "," "" (replace "$" "" (trim t))
  | None => "0"
  end.

(** The search closure, on the first row of the table. *)
Definition search_closure (guardado : JsValue) (row : option (list string))
  : SearchResult :=
  match row with
  | None => no_data
  | Some cells =>
      if negb (tieneContenido cells) then no_data
      else
        let coinciden :=
          strict_eq (parseFloat (costoSistema cells)) (parseFloat_value guardado) in
        {| costo := Some (CurrencyMXN (parseFloat (costoSistema cells)));
           estatus := Some (cell_text cells 3);
           notas := Some (cell_text cells 4);
           fechaRegistro := Some (cell_text cells 5);
           servicio := Some (cell_text cells 6);
           subservicio := Some (cell_text cells 7);
           validacion := Some (if coinciden then "Aceptado" else "No aceptado");
           hayDatos := Some true;
           costosCoinciden := Some coinciden |}
  end.

(** The accept closure: is there a button with a touch target whose
    closest [td] is the first cell of its row? (It is then clicked.) *)
Definition accept_closure (buttons : list ButtonNode) : bool :=
  existsb
    (fun b => touch_target b &&
              match closest_td b with
              | Some i => Nat.eqb i 0
              | None => false
              end)
    buttons.

(** The confirm closure: is there a button of the overlay whose text
    contains 'aceptar'? (It is then clicked.) *)
Definition confirm_closure (modalButtons : list string) : bool :=
  existsb (fun t => includes (toLowerCase (trim t)) "aceptar") modalButtons.

(** *** BrowserService *)

Definition set_validacion (v : string) (r : SearchResult) : SearchResult :=
  {| costo := costo r; estatus := estatus r; notas := notas r;
     fechaRegistro := fechaRegistro r; servicio := servicio r;
     subservicio := subservicio r; validacion := Some v;
     hayDatos := hayDatos r; costosCoinciden := costosCoinciden r |}.

(** [delete searchResult.hayDatos] *)
Definition delete_hayDatos (r : SearchResult) : SearchResult :=
  {| costo := costo r; estatus := estatus r; notas := notas r;
     fechaRegistro := fechaRegistro r; servicio := servicio r;
     subservicio := subservicio r; validacion := validacion r;
     hayDatos := None; costosCoinciden := costosCoinciden r |}.

(** The outcome of a search whose attempts are exhausted. *)
Definition error_fields : SearchResult :=
  {| costo := Some (Plain ""); estatus := Some ""; notas := Some "";
     fechaRegistro := Some ""; servicio := Some ""; subservicio := Some "";
     validacion := Some "Error en consulta";
     hayDatos := None; costosCoinciden := None |}.

Definition portal : string := "https://portalproveedores.ikeasistencia.com".

Definition pendientes : string :=
  "https://portalproveedores.ikeasistencia.com/admin/services/pendientes".

Definition inputSelectors : list Selector :=
  [InputPlaceholder; InputExpediente; InputMat; InputText].

Definition is_true (b : option bool) : bool :=
  match b with
  | Some true => true
  | _ => false
  end.

Section Methods.

Variable cfg : Config.

(** [async login()] *)
Definition login (sc : LoginScript) : M bool :=
  try_catch
    (match getCredentials (l_store sc) with
     | None => throw {| message := "No se encontraron credenciales configuradas" |}
     | Some credentials =>
         page_call (Goto portal) (l_goto sc) ;;
         page_call (WaitForSelector InputUsername (defaultTimeout cfg))
           (l_wait_username sc) ;;
         page_call (WaitForSelector InputPassword (defaultTimeout cfg))
           (l_wait_password sc) ;;
         page_call (TypeInto InputUsername (username credentials))
           (l_type_username sc) ;;
         page_call (TypeInto InputPassword (password credentials))
           (l_type_password sc) ;;
         page_call (Click ButtonSubmit) (l_submit sc) ;;
         page_call WaitForNavigation (l_navigation sc) ;;
         isLoggedIn <- page_call (Evaluate PasswordFieldAbsent)
                         (cmap negb (l_password_field sc)) ;;
         if negb isLoggedIn
         then throw {| message := "Login fallido. Verifique sus credenciales." |}
         else delay 2000 ;; ret true
     end)
    (fun error => throw error).

(** [async initialize()] *)
Definition initialize (sc : InitScript) : M bool :=
  try_catch
    (browserPath <- settle (i_browserPath sc) ;;
     b <- call (Launch browserPath) (i_launch sc) ;;
     (fun w => (Normal tt, with_browser (Some b) w)) ;;
     p <- call NewPage (i_newPage sc) ;;
     (fun w => (Normal tt, with_page (Some p) w)) ;;
     page_call (SetDefaultNavigationTimeout (navigationTimeout cfg)) (Normal tt) ;;
     page_call (SetDefaultTimeout (defaultTimeout cfg)) (Normal tt) ;;
     login (i_login sc))
    (fun error =>
       throw {| message :=
         "No se pudo iniciar ningún navegador. Instala Chrome o Edge para continuar." |}).

(** [async aceptarExpediente(expedienteData)]; the argument is a
    reference to the caller's result object. *)
Definition aceptarExpediente (sc : SearchScript) (expedienteData : loc) : M bool :=
  emit (Entered MAceptarExpediente) ;;
  try_catch
    (try_catch
       (buttonClicked <- page_call (Evaluate ClickAcceptButton)
                           (cmap accept_closure (s_buttons sc)) ;;
        if negb buttonClicked
        then throw {| message := "No se encontró el botón de aceptar" |}
        else
          delay 2000 ;;
          confirmed <- page_call (Evaluate ClickConfirmButton)
                         (cmap confirm_closure (s_modal_buttons sc)) ;;
          if confirmed
          then delay 3000 ;; ret true
          else throw {| message := "No se pudo confirmar la aceptación" |})
       (fun acceptError =>
          write_result expedienteData (set_validacion "Error en aceptación") ;;
          ret false))
    (fun error => ret false).

(** The loop over [inputSelectors]: the first selector that finds an
    element; a query that throws is skipped. *)
Fixpoint find_input (sc : SearchScript) (sels : list Selector)
  : M (option ElementHandle) :=
  match sels with
  | [] => ret None
  | sel :: rest =>
      candidate <- try_catch (page_call (Query sel) (s_query sc sel))
                     (fun e => ret None) ;;
      match candidate with
      | Some el => ret (Some el)
      | None => find_input sc rest
      end
  end.

(** The loop typing [expediente] one character at a time. *)
Fixpoint type_chars (sc : SearchScript) (i : nat) (s : string) : M unit :=
  match s with
  | EmptyString => ret tt
  | String c t =>
      page_call (KeyboardType c) (s_type sc i) ;; type_chars sc (S i) t
  end.

(** The body of the [try] of [searchExpediente]. *)
Definition search_try (expediente : string) (costoGuardado : JsValue)
  (sc : SearchScript) : M Outcome :=
  update_stats incr_totalRevisados ;;
  page_call (SetDefaultTimeout (defaultTimeout cfg)) (Normal tt) ;;
  url <- page_call Url (Normal (s_url sc)) ;;
  (if negb (includes url "portalproveedores.ikeasistencia.com")
   then page_call (Goto pendientes) (s_goto sc) ;; delay 1500
   else ret tt) ;;
  inputElement <- find_input sc inputSelectors ;;
  match inputElement with
  | None => throw {| message := "No se pudo encontrar el campo de búsqueda" |}
  | Some inputElement =>
      call (ElementClick 3) (click inputElement) ;;
      delay 300 ;;
      page_call (Evaluate ClearInput) (s_clear sc) ;;
      type_chars sc 0 expediente ;;
      delay 300 ;;
      try_catch
        (searchButton <- page_call (Query ButtonBuscar) (s_query sc ButtonBuscar) ;;
         match searchButton with
         | Some searchButton => call (ElementClick 1) (click searchButton)
         | None => page_call (KeyboardPress "Enter") (s_enter sc)
         end)
        (fun error => page_call (KeyboardPress "Enter") (s_enter_fallback sc)) ;;
      try_catch
        (page_call (WaitForSelector ResultsOrNone 5000) (s_wait_results sc))
        (fun err => ret tt) ;;
      delay 1500 ;;
      evaluated <- page_call (Evaluate SearchRow)
                     (cmap (search_closure costoGuardado) (s_row sc)) ;;
      searchResult <- new_result evaluated ;;
      r <- read_result searchResult ;;
      (if is_true (hayDatos r)
       then
         update_stats incr_totalConCosto ;;
         if is_true (costosCoinciden r)
         then
           update_stats incr_totalAceptados ;;
           aceptarExpediente sc searchResult ;;
           ret tt
         else ret tt
       else ret tt) ;;
      write_result searchResult delete_hayDatos ;;
      r <- read_result searchResult ;;
      (fun w => (Normal {| fields := r; out_stats := stats w |}, w))
  end.

(** [async searchExpediente(expediente, costoGuardado, retryCount = 0)];
    [env k] is the portal during the attempt whose [retryCount] is [k]. *)
Equations? searchExpediente (expediente : string) (costoGuardado : JsValue)
  (env : nat -> SearchScript) (retryCount : nat) : M Outcome
  by wf (maxRetries cfg - retryCount) lt :=
  searchExpediente expediente costoGuardado env retryCount :=
    emit (Entered MSearchExpediente) ;;
    try_catch
      (search_try expediente costoGuardado (env retryCount))
      (fun error =>
         match lt_dec retryCount (maxRetries cfg) with
         | left _ =>
             delay (retryDelay cfg) ;;
             searchExpediente expediente costoGuardado env (retryCount + 1)
         | right _ =>
             fun w => (Normal {| fields := error_fields; out_stats := stats w |}, w)
         end).
Proof. lia. Qed.

(** [async close()]; [answer] is how [browser.close()] settles. *)
Definition close (answer : Completion unit) : M unit :=
  fun w =>
    match browser w with
    | Some _ =>
        (delay 2000 ;;
         call BrowserClose answer ;;
         (fun w => (Normal tt, with_browser None w)) ;;
         (fun w => (Normal tt, with_page None w))) w
    | None => (Normal tt, w)
    end.

(** [resetStats()]: [this.stats] becomes a new object. *)
Definition resetStats : M unit :=
  fun w =>
    (Normal tt,
     logged (Wrote zero_stats)
       (with_stats (length (statsObjects w)) (statsObjects w ++ [zero_stats]) w)).

End Methods.

End Service.

(** ** Properties *)

Module Properties.

Import JsString JsNumber Service.
Local Open Scope list_scope.
Local Open Scope js_scope.

(** *** Running a method step by step *)

Lemma bind_run {A B} (m : M A) (k : A -> M B) (w : World) :
  bind m k w =
  match m w with
  | (Normal a, w') => k a w'
  | (Throw e, w') => (Throw e, w')
  end.
Proof. reflexivity. Qed.

Lemma try_catch_run {A} (m : M A) (h : Error -> M A) (w : World) :
  try_catch m h w =
  match m w with
  | (Normal a, w') => (Normal a, w')
  | (Throw e, w') => h e w'
  end.
Proof. reflexivity. Qed.

Lemma bind_assoc_run {A B C} (m : M A) (f : A -> M B) (g : B -> M C) w :
  bind (bind m f) g w = bind m (fun a => bind (f a) g) w.
Proof. unfold bind. destruct (m w) as [[a|e] w']; reflexivity. Qed.

(** The two halves of the body of the [try] of [searchExpediente]:
    driving the page up to the results, and reading them. *)
Definition drive (cfg : Config) (expediente : string) (sc : SearchScript) : M unit :=
  page_call (SetDefaultTimeout (defaultTimeout cfg)) (Normal tt) ;;
  url <- page_call Url (Normal (s_url sc)) ;;
  (if negb (includes url "portalproveedores.ikeasistencia.com")
   then page_call (Goto pendientes) (s_goto sc) ;; delay 1500
   else ret tt) ;;
  inputElement <- find_input sc inputSelectors ;;
  match inputElement with
  | None => throw {| message := "No se pudo encontrar el campo de búsqueda" |}
  | Some inputElement =>
      call (ElementClick 3) (click inputElement) ;;
      delay 300 ;;
      page_call (Evaluate ClearInput) (s_clear sc) ;;
      type_chars sc 0 expediente ;;
      delay 300 ;;
      try_catch
        (searchButton <- page_call (Query ButtonBuscar) (s_query sc ButtonBuscar) ;;
         match searchButton with
         | Some searchButton => call (ElementClick 1) (click searchButton)
         | None => page_call (KeyboardPress "Enter") (s_enter sc)
         end)
        (fun error => page_call (KeyboardPress "Enter") (s_enter_fallback sc)) ;;
      try_catch
        (page_call (WaitForSelector ResultsOrNone 5000) (s_wait_results sc))
        (fun err => ret tt) ;;
      delay 1500
  end.

Definition reconcile (costoGuardado : JsValue) (sc : SearchScript)
  : M Outcome :=
  evaluated <- page_call (Evaluate SearchRow)
                 (cmap (search_closure costoGuardado) (s_row sc)) ;;
  searchResult <- new_result evaluated ;;
  r <- read_result searchResult ;;
  (if is_true (hayDatos r)
   then
     update_stats incr_totalConCosto ;;
     if is_true (costosCoinciden r)
     then
       update_stats incr_totalAceptados ;;
       aceptarExpediente sc searchResult ;;
       ret tt
     else ret tt
   else ret tt) ;;
  write_result searchResult delete_hayDatos ;;
  r <- read_result searchResult ;;
  (fun w => (Normal {| fields := r; out_stats := stats w |}, w)).

Lemma search_try_split cfg expediente costoGuardado sc w :
  search_try cfg expediente costoGuardado sc w =
  (update_stats incr_totalRevisados ;;
   drive cfg expediente sc ;;
   reconcile costoGuardado sc) w.
Proof.
  unfold search_try, drive.
  rewrite !bind_run.
  destruct (update_stats incr_totalRevisados w) as [[[]|e] w1]; [|reflexivity].
  rewrite !bind_run.
  destruct (page_call _ _ w1) as [[[]|e] w2]; [|reflexivity].
  rewrite !bind_run.
  destruct (page_call _ _ w2) as [[url|e] w3]; [|reflexivity].
  rewrite !bind_run.
  match goal with |- context [(if ?b then ?x else ?y) w3] =>
    destruct ((if b then x else y) w3) as [[[]|e] w4] end; [|reflexivity].
  rewrite !bind_run.
  destruct (find_input sc inputSelectors w4) as [[[el|]|e] w5]; try reflexivity.
  rewrite !bind_run.
  destruct (call _ _ w5) as [[[]|e] w6]; [|reflexivity].
  rewrite !bind_run.
  destruct (delay 300 w6) as [[[]|e] w7]; [|reflexivity].
  rewrite !bind_run.
  destruct (page_call _ _ w7) as [[[]|e] w8]; [|reflexivity].
  rewrite !bind_run.
  destruct (type_chars sc 0 expediente w8) as [[[]|e] w9]; [|reflexivity].
  rewrite !bind_run.
  destruct (delay 300 w9) as [[[]|e] w10]; [|reflexivity].
  rewrite !bind_run.
  destruct (try_catch _ _ w10) as [[[]|e] w11]; [|reflexivity].
  rewrite !bind_run.
  destruct (try_catch _ _ w11) as [[[]|e] w12]; [|reflexivity].
  rewrite !bind_run.
  destruct (delay 1500 w12) as [[[]|e] w13]; reflexivity.
Qed.

(** *** Methods that only add to the history *)

(** [w] with [evs] appended to its history. *)
Definition extend (evs : list Event) (w : World) : World :=
  {| browser := browser w; page := page w; stats := stats w;
     statsObjects := statsObjects w; results := results w;
     log := log w ++ evs |}.

Lemma extend_nil w : extend [] w = w.
Proof. destruct w; unfold extend; cbn. by rewrite app_nil_r. Qed.

Lemma extend_extend a b w : extend b (extend a w) = extend (a ++ b) w.
Proof. unfold extend; cbn. by rewrite app_assoc. Qed.

Lemma logged_extend ev w : logged ev w = extend [ev] w.
Proof. reflexivity. Qed.

(** Calls to puppeteer and delays. *)
Definition quiet (ev : Event) : Prop :=
  match ev with
  | Did _ | Delay _ => True
  | _ => False
  end.

(** [m] changes nothing but the history, to which it adds events in [Q]. *)
Definition emits (Q : Event -> Prop) {A} (m : M A) : Prop :=
  forall w, exists evs, (m w).2 = extend evs w /\ Forall Q evs.

Section Emits.

Context (Q : Event -> Prop).

Lemma emits_ret {A} (a : A) : emits Q (ret a).
Proof. intros w. exists []. by rewrite extend_nil. Qed.

Lemma emits_throw {A} e : emits Q (@throw A e).
Proof. intros w. exists []. by rewrite extend_nil. Qed.

Lemma emits_settle {A} (c : Completion A) : emits Q (settle c).
Proof. intros w. exists []. by rewrite extend_nil. Qed.

Lemma emits_emit ev : Q ev -> emits Q (emit ev).
Proof. intros H w. exists [ev]. split; [reflexivity | by constructor]. Qed.

Lemma emits_delay ms : Q (Delay ms) -> emits Q (delay ms).
Proof. apply emits_emit. Qed.

Lemma emits_call {A} a (c : Completion A) : Q (Did a) -> emits Q (call a c).
Proof. intros H w. exists [Did a]. split; [reflexivity | by constructor]. Qed.

Lemma emits_page_call {A} a (c : Completion A) :
  Q (Did a) -> emits Q (page_call a c).
Proof.
  intros H w. unfold page_call. destruct (page w).
  - exists [Did a]. split; [reflexivity | by constructor].
  - exists []. by rewrite extend_nil.
Qed.

Lemma emits_bind {A B} (m : M A) (k : A -> M B) :
  emits Q m -> (forall a, emits Q (k a)) -> emits Q (bind m k).
Proof.
  intros Hm Hk w. rewrite bind_run.
  destruct (Hm w) as (evs & E & F).
  destruct (m w) as [[a|e] w1]; cbn in E; subst w1.
  - destruct (Hk a (extend evs w)) as (evs' & E' & F').
    exists (evs ++ evs'). rewrite E', extend_extend.
    split; [reflexivity | by apply Forall_app].
  - by exists evs.
Qed.

Lemma emits_try_catch {A} (m : M A) (h : Error -> M A) :
  emits Q m -> (forall e, emits Q (h e)) -> emits Q (try_catch m h).
Proof.
  intros Hm Hh w. rewrite try_catch_run.
  destruct (Hm w) as (evs & E & F).
  destruct (m w) as [[a|e] w1]; cbn in E; subst w1.
  - by exists evs.
  - destruct (Hh e (extend evs w)) as (evs' & E' & F').
    exists (evs ++ evs'). rewrite E', extend_extend.
    split; [reflexivity | by apply Forall_app].
Qed.

End Emits.

Lemma emits_weaken (Q Q' : Event -> Prop) {A} (m : M A) :
  (forall ev, Q ev -> Q' ev) -> emits Q m -> emits Q' m.
Proof.
  intros H Hm w. destruct (Hm w) as (evs & E & F).
  exists evs. split; [done | by eapply Forall_impl].
Qed.

Ltac emits_steps :=
  repeat first
    [ apply emits_bind; [| intros ?]
    | apply emits_try_catch; [| intros ?]
    | apply emits_page_call; exact I
    | apply emits_call; exact I
    | apply emits_delay; exact I
    | apply emits_ret
    | apply emits_throw
    | apply emits_settle ].

Lemma emits_find_input sc sels : emits quiet (find_input sc sels).
Proof.
  induction sels as [|sel rest IH]; cbn [find_input]; [apply emits_ret|].
  apply emits_bind; [emits_steps|].
  intros [el|]; [apply emits_ret | exact IH].
Qed.

Lemma emits_type_chars sc s : forall i, emits quiet (type_chars sc i s).
Proof.
  induction s as [|c t IH]; intros i; cbn [type_chars]; [apply emits_ret|].
  apply emits_bind; [emits_steps | intros _; apply IH].
Qed.

Lemma emits_drive cfg expediente sc : emits quiet (drive cfg expediente sc).
Proof.
  unfold drive.
  apply emits_bind; [emits_steps | intros _].
  apply emits_bind; [emits_steps | intros url].
  apply emits_bind; [destruct (negb _); emits_steps | intros _].
  apply emits_bind; [apply emits_find_input | intros [el|]]; [|apply emits_throw].
  apply emits_bind; [emits_steps | intros _].
  apply emits_bind; [emits_steps | intros _].
  apply emits_bind; [emits_steps | intros _].
  apply emits_bind; [apply emits_type_chars | intros _].
  apply emits_bind; [emits_steps | intros _].
  apply emits_bind; [| intros _; emits_steps].
  apply emits_try_catch; [| intros ?; emits_steps].
  apply emits_bind; [emits_steps | intros [b|]; emits_steps].
Qed.

(** The values written to the statistics, and the methods entered, in
    a stretch of history. *)
Definition writes (evs : list Event) : list Stats :=
  omap (fun ev => match ev with Wrote s => Some s | _ => None end) evs.

Definition entered (evs : list Event) : list Method :=
  omap (fun ev => match ev with Entered m => Some m | _ => None end) evs.

Lemma writes_app a b : writes (a ++ b) = writes a ++ writes b.
Proof. apply omap_app. Qed.

Lemma entered_app a b : entered (a ++ b) = entered a ++ entered b.
Proof. apply omap_app. Qed.

Lemma quiet_writes evs : Forall quiet evs -> writes evs = [].
Proof. induction 1 as [|[] ? H]; cbn in *; try done. Qed.

Lemma quiet_entered evs : Forall quiet evs -> entered evs = [].
Proof. induction 1 as [|[] ? H]; cbn in *; try done. Qed.

(** *** One attempt of a search *)

(** Whether the two clicks of the acceptance succeed on the portal of
    [sc]. *)
Definition accept_ok (sc : SearchScript) : bool :=
  match s_buttons sc with
  | Normal bs =>
      accept_closure bs &&
      match s_modal_buttons sc with
      | Normal ms => confirm_closure ms
      | Throw _ => false
      end
  | Throw _ => false
  end.

Definition mark_failed (l : loc) (r : SearchResult) (w : World) : World :=
  with_results (<[l := set_validacion "Error en aceptación" r]> (results w)) w.


Lemma page_call_run {A} a (c : Completion A) w :
  is_Some (page w) -> page_call a c w = (c, logged (Did a) w).
Proof. intros [p Hp]. unfold page_call. by rewrite Hp. Qed.

Lemma page_call_null {A} a (c : Completion A) w :
  page w = None -> page_call a c w = (Throw type_error, w).
Proof. intros Hp. unfold page_call. by rewrite Hp. Qed.

Lemma world_eq w w' :
  browser w = browser w' -> page w = page w' -> stats w = stats w' ->
  statsObjects w = statsObjects w' -> results w = results w' ->
  log w = log w' -> w = w'.
Proof. destruct w, w'; cbn; intros; by subst. Qed.

Ltac same_world :=
  apply world_eq; cbn; rewrite <- ?app_assoc; reflexivity.

Lemma aceptarExpediente_run sc l r w :
  results w !! l = Some r ->
  is_Some (page w) ->
  exists evs,
    Forall quiet evs /\
    aceptarExpediente sc l w =
    (Normal (accept_ok sc),
     if accept_ok sc
     then extend (Entered MAceptarExpediente :: evs) w
     else mark_failed l r (extend (Entered MAceptarExpediente :: evs) w)).
Proof.
  intros Hr [p Hp].
  unfold aceptarExpediente, accept_ok, mark_failed, bind, try_catch,
    page_call, delay, emit, write_result, ret, throw.
  cbn. rewrite Hp.
  destruct (s_buttons sc) as [bs|e]; cbn.
  - destruct (accept_closure bs); cbn.
    + rewrite Hp. destruct (s_modal_buttons sc) as [ms|e]; cbn.
      * destruct (confirm_closure ms); cbn.
        -- exists [Did (Evaluate ClickAcceptButton); Delay 2000;
                   Did (Evaluate ClickConfirmButton); Delay 3000].
           split; [repeat constructor|]. f_equal. same_world.
        -- rewrite Hr.
           exists [Did (Evaluate ClickAcceptButton); Delay 2000;
                   Did (Evaluate ClickConfirmButton)].
           split; [repeat constructor|]. f_equal. same_world.
      * rewrite Hr.
        exists [Did (Evaluate ClickAcceptButton); Delay 2000;
                Did (Evaluate ClickConfirmButton)].
        split; [repeat constructor|]. f_equal. same_world.
    + rewrite Hr. exists [Did (Evaluate ClickAcceptButton)].
      split; [repeat constructor|]. f_equal. same_world.
  - rewrite Hr. exists [Did (Evaluate ClickAcceptButton)].
    split; [repeat constructor|]. f_equal. same_world.
Qed.


Definition matched (x : SearchResult) : bool :=
  is_true (hayDatos x) && is_true (costosCoinciden x).

(** The values written to the statistics after the first increment, in
    an attempt that extracted [x]. *)
Definition counted (x : SearchResult) (s : Stats) : list Stats :=
  if is_true (hayDatos x)
  then incr_totalConCosto s ::
       (if is_true (costosCoinciden x)
        then [incr_totalAceptados (incr_totalConCosto s)]
        else [])
  else [].

(** The properties of the outcome of an attempt that extracted [x]. *)
Definition final_fields (sc : SearchScript) (x : SearchResult) : SearchResult :=
  delete_hayDatos
    (if matched x && negb (accept_ok sc)
     then set_validacion "Error en aceptación" x
     else x).

(** From [w] to [w']: the session and the reference to the statistics
    are the same, the statistics object holds [s'], and [evs] was added
    to the history. *)
Record Step (w w' : World) (evs : list Event) (s' : Stats) : Prop := {
  step_browser : browser w' = browser w;
  step_page : page w' = page w;
  step_stats : stats w' = stats w;
  step_objects : statsObjects w' = <[stats w := s']> (statsObjects w);
  step_log : log w' = log w ++ evs
}.

Lemma Step_extend w evs s :
  current_stats w = Some s -> Step w (extend evs w) evs s.
Proof.
  intros H. split; try reflexivity.
  cbn. symmetry. by apply list_insert_id.
Qed.

Lemma Step_refl w s : current_stats w = Some s -> Step w w [] s.
Proof. intros H. rewrite <- (extend_nil w) at 2. by apply Step_extend. Qed.

Lemma Step_results w rs s :
  current_stats w = Some s -> Step w (with_results rs w) [] s.
Proof.
  intros H. split; try reflexivity; cbn.
  - symmetry. by apply list_insert_id.
  - by rewrite app_nil_r.
Qed.

Lemma Step_trans w w1 w2 evs1 evs2 s1 s2 :
  Step w w1 evs1 s1 -> Step w1 w2 evs2 s2 -> Step w w2 (evs1 ++ evs2) s2.
Proof.
  intros [] []. split; try congruence.
  - rewrite step_objects1, step_stats0, step_objects0.
    apply list_insert_insert_eq.
  - rewrite step_log1, step_log0. by rewrite app_assoc.
Qed.

Lemma Step_current w w' evs s s' :
  current_stats w = Some s -> Step w w' evs s' -> current_stats w' = Some s'.
Proof.
  unfold current_stats. intros H [].
  rewrite step_objects0, step_stats0.
  apply list_lookup_insert_eq. by eapply lookup_lt_Some.
Qed.

Lemma update_stats_run f w s :
  current_stats w = Some s ->
  exists w',
    update_stats f w = (Normal tt, w') /\
    Step w w' [Wrote (f s)] (f s) /\
    results w' = results w.
Proof.
  unfold current_stats, update_stats. intros H. rewrite H.
  eexists. split; [reflexivity|]. by split.
Qed.

Lemma aceptarExpediente_step sc l x w s :
  results w !! l = Some x ->
  is_Some (page w) ->
  current_stats w = Some s ->
  exists b w' evs,
    aceptarExpediente sc l w = (Normal b, w') /\
    Step w w' evs s /\
    writes evs = [] /\
    entered evs = [MAceptarExpediente] /\
    results w' !! l =
      Some (if accept_ok sc then x else set_validacion "Error en aceptación" x).
Proof.
  intros Hx Hp Hs.
  destruct (aceptarExpediente_run sc l x w Hx Hp) as (evs & Q & E).
  exists (accept_ok sc). eexists. exists (Entered MAceptarExpediente :: evs).
  split; [exact E|].
  assert (Step w (extend (Entered MAceptarExpediente :: evs) w)
            (Entered MAceptarExpediente :: evs) s) as S0 by by apply Step_extend.
  change (writes (Entered MAceptarExpediente :: evs)) with (writes evs).
  change (entered (Entered MAceptarExpediente :: evs))
    with (MAceptarExpediente :: entered evs).
  rewrite quiet_writes, quiet_entered by done.
  destruct (accept_ok sc).
  - repeat split; try done; apply S0.
  - repeat split; try done; try apply S0.
    unfold mark_failed; cbn.
    apply list_lookup_insert_eq. by eapply lookup_lt_Some.
Qed.

(** The end of the body: [delete], then the object returned. *)
Lemma finish_run l y w s :
  results w !! l = Some y ->
  current_stats w = Some s ->
  exists w',
    (write_result l delete_hayDatos ;;
     r <- read_result l ;;
     (fun w => (Normal {| fields := r; out_stats := stats w |}, w))) w =
    (Normal {| fields := delete_hayDatos y; out_stats := stats w |}, w') /\
    Step w w' [] s.
Proof.
  intros Hy Hs. rewrite bind_run. unfold write_result at 1. rewrite Hy.
  rewrite bind_run. unfold read_result. cbn [results with_results].
  rewrite list_lookup_insert_eq by by eapply lookup_lt_Some.
  eexists. split; [reflexivity|]. by apply Step_results.
Qed.

Lemma reconcile_run c sc w s res w' :
  current_stats w = Some s ->
  reconcile c sc w = (res, w') ->
  exists evs s',
    Step w w' evs s' /\
    match res with
    | Throw _ => s' = s /\ Forall quiet evs
    | Normal o =>
        exists row,
          s_row sc = Normal row /\
          let x := search_closure c row in
          out_stats o = stats w /\
          fields o = final_fields sc x /\
          writes evs = counted x s /\
          s' = List.last (counted x s) s /\
          entered evs = if matched x then [MAceptarExpediente] else []
    end.
Proof.
  intros Hs. unfold reconcile. rewrite bind_run.
  destruct (page w) as [p|] eqn:Hp.
  2: { rewrite page_call_null by done. intros [= <- <-]. exists [], s.
       split; [by apply Step_refl | by split]. }
  rewrite page_call_run by eauto.
  destruct (s_row sc) as [row|e]; cbn [cmap].
  2: { intros [= <- <-]. exists [Did (Evaluate SearchRow)], s.
       split; [by apply (Step_extend w [_])|]. split; [done|]. repeat constructor. }
  set (x := search_closure c row).
  set (w1 := logged (Did (Evaluate SearchRow)) w).
  assert (S1 : Step w w1 [Did (Evaluate SearchRow)] s) by by apply (Step_extend w [_]).
  rewrite bind_run. cbn [new_result]. rewrite bind_run.
  unfold read_result at 1. cbn [results with_results].
  rewrite list_lookup_middle by done.
  set (l := length (results w1)).
  set (w2 := with_results (results w1 ++ [x]) w1).
  assert (Hl : results w2 !! l = Some x) by by apply list_lookup_middle.
  assert (H1 : current_stats w1 = Some s) by done.
  assert (H2 : current_stats w2 = Some s) by done.
  assert (S2 : Step w w2 [Did (Evaluate SearchRow)] s).
  { rewrite <- (app_nil_r [_]). eapply Step_trans; [exact S1|]. by apply Step_results. }
  assert (P2 : is_Some (page w2)) by (cbn; eauto).
  rewrite bind_run.
  destruct (is_true (hayDatos x)) eqn:Hd.
  - rewrite bind_run.
    destruct (update_stats_run incr_totalConCosto w2 s H2) as (w3 & E3 & S3 & R3).
    rewrite E3.
    assert (H3 := Step_current _ _ _ _ _ H2 S3).
    destruct (is_true (costosCoinciden x)) eqn:Hc.
    + rewrite bind_run.
      destruct (update_stats_run incr_totalAceptados w3 _ H3) as (w4 & E4 & S4 & R4).
      rewrite E4.
      assert (H4 := Step_current _ _ _ _ _ H3 S4).
      rewrite bind_run.
      assert (Hl4 : results w4 !! l = Some x) by by rewrite R4, R3.
      assert (P4 : is_Some (page w4)).
      { rewrite (step_page _ _ _ _ S4), (step_page _ _ _ _ S3). exact P2. }
      destruct (aceptarExpediente_step sc l x w4 _ Hl4 P4 H4)
        as (b & w5 & evs & E5 & S5 & W5 & N5 & R5).
      rewrite E5. cbn [ret].
      assert (H5 := Step_current _ _ _ _ _ H4 S5).
      destruct (finish_run l _ w5 _ R5 H5) as (w6 & E6 & S6).
      rewrite E6. intros [= <- <-].
      eexists. eexists. split.
      { eapply Step_trans; [exact S2|]. eapply Step_trans; [exact S3|].
        eapply Step_trans; [exact S4|]. eapply Step_trans; [exact S5|]. exact S6. }
      exists row. split; [done|]. cbn zeta. fold x.
      unfold final_fields, matched, counted. rewrite Hd, Hc.
      rewrite !writes_app, !entered_app, W5, N5. cbn.
      rewrite (step_stats _ _ _ _ S5), (step_stats _ _ _ _ S4),
        (step_stats _ _ _ _ S3).
      repeat split; try done. by destruct (accept_ok sc).
    + cbn [ret].
      assert (Hl3 : results w3 !! l = Some x) by by rewrite R3.
      destruct (finish_run l x w3 _ Hl3 H3) as (w6 & E6 & S6).
      rewrite E6. intros [= <- <-].
      eexists. eexists. split.
      { eapply Step_trans; [exact S2|]. eapply Step_trans; [exact S3|]. exact S6. }
      exists row. split; [done|]. cbn zeta. fold x.
      unfold final_fields, matched, counted. rewrite Hd, Hc.
      rewrite (step_stats _ _ _ _ S3). by repeat split.
  - cbn [ret].
    destruct (finish_run l x w2 _ Hl H2) as (w6 & E6 & S6).
    rewrite E6. intros [= <- <-].
    eexists. eexists. split.
    { eapply Step_trans; [exact S2|]. exact S6. }
    exists row. split; [done|]. cbn zeta. fold x.
    unfold final_fields, matched, counted. rewrite Hd. by repeat split.
Qed.


Lemma search_try_run cfg expediente c sc w s res w' :
  current_stats w = Some s ->
  search_try cfg expediente c sc w = (res, w') ->
  exists evs s',
    Step w w' evs s' /\
    match res with
    | Throw _ =>
        s' = incr_totalRevisados s /\
        writes evs = [incr_totalRevisados s] /\
        entered evs = []
    | Normal o =>
        exists row,
          s_row sc = Normal row /\
          let x := search_closure c row in
          out_stats o = stats w /\
          fields o = final_fields sc x /\
          writes evs = incr_totalRevisados s :: counted x (incr_totalRevisados s) /\
          s' = List.last (counted x (incr_totalRevisados s)) (incr_totalRevisados s) /\
          entered evs = if matched x then [MAceptarExpediente] else []
    end.
Proof.
  intros Hs. rewrite search_try_split, bind_run.
  destruct (update_stats_run incr_totalRevisados w s Hs) as (w1 & E1 & S1 & _).
  rewrite E1, bind_run.
  assert (H1 := Step_current _ _ _ _ _ Hs S1).
  destruct (emits_drive cfg expediente sc w1) as (evs1 & E2 & Q1).
  destruct (drive cfg expediente sc w1) as [[[]|e] w2]; cbn in E2; subst w2.
  - assert (S2 := Step_extend w1 evs1 _ H1).
    assert (H2 := Step_current _ _ _ _ _ H1 S2).
    intros Hr.
    destruct (reconcile_run c sc _ _ res w' H2 Hr) as (evs & s' & S3 & Post).
    exists ([Wrote (incr_totalRevisados s)] ++ evs1 ++ evs), s'.
    split. { eapply Step_trans; [exact S1|]. eapply Step_trans; [exact S2|exact S3]. }
    rewrite !writes_app, !entered_app, (quiet_writes evs1), (quiet_entered evs1) by done.
    destruct res as [o|e].
    + destruct Post as (row & Hrow & Ho & Hf & Hw & Hl & He).
      exists row. split; [done|]. cbn zeta.
      rewrite Hw, He, Ho. cbn. rewrite (step_stats _ _ _ _ S1). by repeat split.
    + destruct Post as (-> & Q).
      rewrite (quiet_writes evs), (quiet_entered evs) by done.
      by repeat split.
  - intros [= <- <-].
    exists ([Wrote (incr_totalRevisados s)] ++ evs1), (incr_totalRevisados s).
    split. { eapply Step_trans; [exact S1|]. by apply Step_extend. }
    rewrite !writes_app, !entered_app, (quiet_writes evs1), (quiet_entered evs1) by done.
    by repeat split.
Qed.


(** *** A whole search, retries included *)

Section Search.

Variables (cfg : Config) (expediente : string) (c : JsValue)
  (env : nat -> SearchScript).

(** [Calls r s ws ms s' f]: an invocation with [retryCount = r] that
    finds the statistics at [s] writes the values [ws] to them, enters
    the methods [ms], leaves the statistics at [s'] and returns an
    outcome with the properties [f]. *)
Inductive Calls : nat -> Stats -> list Stats -> list Method -> Stats ->
                  SearchResult -> Prop :=
| calls_completed r s row :
    s_row (env r) = Normal row ->
    Calls r s
      (incr_totalRevisados s ::
         counted (search_closure c row) (incr_totalRevisados s))
      (MSearchExpediente ::
         if matched (search_closure c row) then [MAceptarExpediente] else [])
      (List.last (counted (search_closure c row) (incr_totalRevisados s))
         (incr_totalRevisados s))
      (final_fields (env r) (search_closure c row))
| calls_exhausted r s :
    ~ r < maxRetries cfg ->
    Calls r s [incr_totalRevisados s] [MSearchExpediente]
      (incr_totalRevisados s) error_fields
| calls_retry r s ws ms s' f :
    r < maxRetries cfg ->
    Calls (r + 1) (incr_totalRevisados s) ws ms s' f ->
    Calls r s (incr_totalRevisados s :: ws) (MSearchExpediente :: ms) s' f.

Lemma searchExpediente_run r w s res w' :
  current_stats w = Some s ->
  searchExpediente cfg expediente c env r w = (res, w') ->
  exists evs s' o,
    res = Normal o /\
    Step w w' evs s' /\
    out_stats o = stats w /\
    Calls r s (writes evs) (entered evs) s' (fields o).
Proof.
  remember (maxRetries cfg - r) as n eqn:Hn.
  revert r Hn w s res w'.
  induction n as [|n IH]; intros r Hn w s res w' Hs;
    rewrite searchExpediente_equation_1, bind_run; cbn [emit];
    rewrite try_catch_run;
    set (w0 := logged (Entered MSearchExpediente) w);
    assert (S0 : Step w w0 [Entered MSearchExpediente] s)
      by (by apply (Step_extend w [_]));
    assert (H0 := Step_current _ _ _ _ _ Hs S0);
    destruct (search_try cfg expediente c (env r) w0) as [[o|e] w1] eqn:E;
    destruct (search_try_run _ _ _ _ _ _ _ _ H0 E) as (evs & s1 & S1 & Post).
  1, 3: intros [= <- <-];
    destruct Post as (row & Hrow & Ho & Hf & Hw & Hl & He);
    exists ([Entered MSearchExpediente] ++ evs), s1, o;
    (split; [done|]); (split; [by eapply Step_trans|]); (split; [done|]);
    rewrite writes_app, entered_app, Hw, He, Hl, Hf; cbn;
    by apply calls_completed.
  - destruct (lt_dec r (maxRetries cfg)) as [Hlt|Hge]; [lia|].
    intros [= <- <-]. destruct Post as (-> & Hw & He).
    exists ([Entered MSearchExpediente] ++ evs), (incr_totalRevisados s).
    eexists. split; [reflexivity|]. split; [by eapply Step_trans|].
    split; [cbn; by rewrite (step_stats _ _ _ _ S1)|].
    rewrite writes_app, entered_app, Hw, He. cbn.
    by apply calls_exhausted.
  - destruct Post as (-> & Hw & He).
    destruct (lt_dec r (maxRetries cfg)) as [Hlt|Hge].
    + rewrite bind_run; cbn [delay emit]. intros Hrec.
      set (w2 := logged (Delay (retryDelay cfg)) w1) in *.
      assert (S2 : Step w1 w2 [Delay (retryDelay cfg)] (incr_totalRevisados s)).
      { apply (Step_extend w1 [_]). by eapply Step_current. }
      assert (H2 : current_stats w2 = Some (incr_totalRevisados s)).
      { eapply Step_current; [|exact S2]. by eapply Step_current. }
      destruct (IH (r + 1) ltac:(lia) w2 _ res w' H2 Hrec)
        as (evs' & s' & o & -> & S3 & Ho & HC).
      exists ([Entered MSearchExpediente] ++ evs ++ [Delay (retryDelay cfg)] ++ evs'),
        s', o.
      split; [done|]. split.
      { eapply Step_trans; [exact S0|]. eapply Step_trans; [exact S1|].
        eapply Step_trans; [exact S2|exact S3]. }
      split. { rewrite Ho. cbn. by rewrite (step_stats _ _ _ _ S1). }
      rewrite !writes_app, !entered_app, Hw, He. cbn.
      by apply calls_retry.
    + intros [= <- <-].
      exists ([Entered MSearchExpediente] ++ evs), (incr_totalRevisados s).
      eexists. split; [reflexivity|]. split; [by eapply Step_trans|].
      split; [cbn; by rewrite (step_stats _ _ _ _ S1)|].
      rewrite writes_app, entered_app, Hw, He. cbn.
      by apply calls_exhausted.
Qed.

End Search.


(** *** The session and the other methods *)

Lemma emits_login cfg sc : emits quiet (login cfg sc).
Proof.
  unfold login. apply emits_try_catch; [| intros e; apply emits_throw].
  destruct (getCredentials (l_store sc)) as [cr|]; [| apply emits_throw].
  do 7 (apply emits_bind; [emits_steps | intros _]).
  apply emits_bind; [emits_steps | intros b].
  destruct (negb b); emits_steps.
Qed.

(** The operations of the public interface. *)
Inductive Op : Type :=
| OpInitialize (sc : InitScript)
| OpLogin (sc : LoginScript)
| OpSearch (expediente : string) (costoGuardado : JsValue)
    (env : nat -> SearchScript)
| OpClose (answer : Completion unit)
| OpResetStats.

(** The state after an operation, whether it returned or threw. *)
Definition perform (cfg : Config) (w : World) (op : Op) : World :=
  match op with
  | OpInitialize sc => (initialize cfg sc w).2
  | OpLogin sc => (login cfg sc w).2
  | OpSearch expediente costoGuardado env =>
      (searchExpediente cfg expediente costoGuardado env 0 w).2
  | OpClose answer => (close answer w).2
  | OpResetStats => (resetStats w).2
  end.

Definition run (cfg : Config) (ops : list Op) : World :=
  fold_left (perform cfg) ops constructor.

(** [totalAceptados <= totalConCosto <= totalRevisados] *)
Definition ordered (s : Stats) : Prop :=
  totalAceptados s <= totalConCosto s /\ totalConCosto s <= totalRevisados s.

(** What every state of the service satisfies. *)
Record Tidy (w : World) : Prop := {
  tidy_current : exists s, current_stats w = Some s /\ ordered s;
  tidy_history : Forall ordered (writes (log w));
  tidy_session : browser w = None -> page w = None
}.

Lemma Tidy_constructor : Tidy constructor.
Proof.
  split; cbn; try done.
  exists zero_stats. split; [done|]. unfold ordered; cbn; lia.
Qed.

Lemma Tidy_extend evs w : writes evs = [] -> Tidy w -> Tidy (extend evs w).
Proof.
  intros Hw [Hc Hh Hs]. split; cbn; try done.
  by rewrite writes_app, Hw, app_nil_r.
Qed.

Lemma Calls_ordered cfg c env r s ws ms s' f :
  Calls cfg c env r s ws ms s' f ->
  ordered s -> Forall ordered ws /\ ordered s'.
Proof.
  unfold ordered.
  induction 1 as [r s row Hrow | r s Hge | r s ws ms s' f Hlt HC IH]; intros Hs.
  - unfold counted.
    destruct (is_true (hayDatos _)); [destruct (is_true (costosCoinciden _))|];
      cbn; (split; [repeat first [apply Forall_nil_2 | apply Forall_cons_2]|]);
      cbn; lia.
  - split; [repeat first [apply Forall_nil_2 | apply Forall_cons_2]|]; cbn; lia.
  - destruct IH as [IH1 IH2]; [cbn; lia|].
    split; [apply Forall_cons_2|]; cbn; try done; lia.
Qed.

Lemma Tidy_Step w w' evs s s' :
  current_stats w = Some s ->
  Step w w' evs s' ->
  Forall ordered (writes evs) -> ordered s' ->
  Tidy w -> Tidy w'.
Proof.
  intros Hs S Hw Ho [Hc Hh Hsess]. split.
  - exists s'. split; [by eapply Step_current | done].
  - rewrite (step_log _ _ _ _ S), writes_app. by apply Forall_app.
  - by rewrite (step_browser _ _ _ _ S), (step_page _ _ _ _ S).
Qed.

Lemma Tidy_search cfg expediente c env r w :
  Tidy w -> Tidy (searchExpediente cfg expediente c env r w).2.
Proof.
  intros T. destruct (tidy_current _ T) as (s & Hs & Ho).
  destruct (searchExpediente cfg expediente c env r w) as [res w'] eqn:E.
  destruct (searchExpediente_run _ _ _ _ _ _ _ _ _ Hs E)
    as (evs & s' & o & _ & S & _ & HC).
  destruct (Calls_ordered _ _ _ _ _ _ _ _ _ HC Ho).
  by eapply Tidy_Step.
Qed.

Lemma Tidy_login cfg sc w : Tidy w -> Tidy (login cfg sc w).2.
Proof.
  intros T. destruct (emits_login cfg sc w) as (evs & -> & Q).
  apply Tidy_extend; [by apply quiet_writes | done].
Qed.

Lemma Tidy_resetStats w : Tidy w -> Tidy (resetStats w).2.
Proof.
  intros [Hc Hh Hs]. split; cbn; try done.
  - exists zero_stats. unfold current_stats; cbn.
    split; [by apply list_lookup_middle | unfold ordered; cbn; lia].
  - rewrite writes_app. apply Forall_app. split; [done|].
    apply Forall_cons_2; [unfold ordered; cbn; lia | apply Forall_nil_2].
Qed.

Lemma Tidy_close answer w : Tidy w -> Tidy (close answer w).2.
Proof.
  intros T. unfold close.
  destruct (browser w) eqn:Hb; [|done].
  destruct T as [Hc Hh Hs].
  rewrite !bind_run; cbn [delay emit]. rewrite !bind_run; cbn [call].
  destruct answer as [[]|e]; cbn.
  - split; cbn; try done. rewrite !writes_app; cbn. by rewrite !app_nil_r.
  - apply (Tidy_extend [_]); [done|]. apply (Tidy_extend [_]); [done|].
    by split.
Qed.

(** From a state in [P], the method ends in a state in [Q], whether it
    returns or throws. *)
Definition carries (P Q : World -> Prop) {A} (m : M A) : Prop :=
  forall w, P w -> Q (m w).2.

Lemma carries_bind (P R Q : World -> Prop) {A B} (m : M A) (k : A -> M B) :
  carries P R m -> (forall w, R w -> Q w) -> (forall a, carries R Q (k a)) ->
  carries P Q (bind m k).
Proof.
  intros Hm HR Hk w HP. rewrite bind_run.
  specialize (Hm w HP). destruct (m w) as [[a|e] w1].
  - by apply Hk.
  - by apply HR.
Qed.

Lemma carries_try_catch (P R Q : World -> Prop) {A} (m : M A) (h : Error -> M A) :
  carries P R m -> (forall w, R w -> Q w) -> (forall e, carries R Q (h e)) ->
  carries P Q (try_catch m h).
Proof.
  intros Hm HR Hh w HP. rewrite try_catch_run.
  specialize (Hm w HP). destruct (m w) as [[a|e] w1].
  - by apply HR.
  - by apply Hh.
Qed.

Lemma carries_emits (P : World -> Prop) {A} (m : M A) :
  (forall evs w, Forall quiet evs -> P w -> P (extend evs w)) ->
  emits quiet m -> carries P P m.
Proof.
  intros HP Hm w Hw. destruct (Hm w) as (evs & -> & Q). by apply HP.
Qed.

(** A state of the service whose browser is open. *)
Definition Open (w : World) : Prop := Tidy w /\ is_Some (browser w).

Lemma Tidy_quiet evs w : Forall quiet evs -> Tidy w -> Tidy (extend evs w).
Proof. intros Q. apply Tidy_extend. by apply quiet_writes. Qed.

Lemma Open_quiet evs w : Forall quiet evs -> Open w -> Open (extend evs w).
Proof. intros Q [T Hb]. split; [by apply Tidy_quiet | exact Hb]. Qed.

Lemma Open_with_browser b w : Tidy w -> Open (with_browser (Some b) w).
Proof. intros [Hc Hh Hs]. split; [by split | by eexists]. Qed.

Lemma Open_with_page p w : Open w -> Open (with_page (Some p) w).
Proof.
  intros [[Hc Hh Hs] [b Hb]]. split; [|by exists b].
  split; try done. cbn. intros H. by rewrite H in Hb.
Qed.

Lemma Tidy_initialize cfg sc w : Tidy w -> Tidy (initialize cfg sc w).2.
Proof.
  revert w. change (carries Tidy Tidy (initialize cfg sc)). unfold initialize.
  apply (carries_try_catch Tidy Tidy); [| done | intros e w T; exact T].
  apply (carries_bind Tidy Tidy); [by intros w T | done | intros path].
  apply (carries_bind Tidy Tidy); [| done | intros b].
  { apply carries_emits; [apply Tidy_quiet | emits_steps]. }
  apply (carries_bind Tidy Open); [| by intros w [T _] | intros _].
  { intros w T. by apply Open_with_browser. }
  apply (carries_bind Open Open); [| by intros w [T _] | intros p].
  { apply carries_emits; [apply Open_quiet | emits_steps]. }
  apply (carries_bind Open Open); [| by intros w [T _] | intros _].
  { intros w T. by apply Open_with_page. }
  intros w O. eapply (carries_emits Open); [apply Open_quiet | | exact O].
  apply emits_bind; [emits_steps | intros _].
  apply emits_bind; [emits_steps | intros _]. apply emits_login.
Qed.

Lemma Tidy_perform cfg op w : Tidy w -> Tidy (perform cfg w op).
Proof.
  destruct op; cbn [perform].
  - apply Tidy_initialize.
  - apply Tidy_login.
  - apply Tidy_search.
  - apply Tidy_close.
  - apply Tidy_resetStats.
Qed.

Lemma Tidy_fold cfg ops : forall w, Tidy w -> Tidy (fold_left (perform cfg) ops w).
Proof.
  induction ops as [|op ops IH]; intros w T; cbn [fold_left]; [done|].
  apply IH. by apply Tidy_perform.
Qed.

Lemma Tidy_run cfg ops : Tidy (run cfg ops).
Proof. exact (Tidy_fold cfg ops constructor Tidy_constructor). Qed.


(** *** Portals and states used as examples *)

Definition element : ElementHandle := {| click := Normal tt |}.

(** The first row of the results, with [cost] in its cost cell. *)
Definition row_with (cost : string) : list string :=
  [""; "123456"; cost; "Activo"; "Test"; "01/01/2023";
   "Servicio Test"; "Subservicio Test"].

(** A portal on which every call resolves; the table is [row], the
    accept button and the confirmation button are there. *)
Definition portal_showing (row : option (list string)) : SearchScript :=
  {| s_url := portal;
     s_goto := Normal tt;
     s_query := fun _ => Normal (Some element);
     s_clear := Normal tt;
     s_type := fun _ => Normal tt;
     s_enter := Normal tt;
     s_enter_fallback := Normal tt;
     s_wait_results := Normal tt;
     s_row := Normal row;
     s_buttons := Normal [{| touch_target := true; closest_td := Some 0 |}];
     s_modal_buttons := Normal ["Cancelar"; " Aceptar "] |}.

(** The same portal when no selector finds the search input. *)
Definition portal_without_input : SearchScript :=
  {| s_url := portal;
     s_goto := Normal tt;
     s_query := fun _ => Throw {| message := "Test error" |};
     s_clear := Normal tt;
     s_type := fun _ => Normal tt;
     s_enter := Normal tt;
     s_enter_fallback := Normal tt;
     s_wait_results := Normal tt;
     s_row := Normal (Some (row_with "$1,000.00"));
     s_buttons := Normal [{| touch_target := true; closest_td := Some 0 |}];
     s_modal_buttons := Normal ["Cancelar"; " Aceptar "] |}.

(** The same portal when the extraction of the first row is rejected. *)
Definition portal_without_table : SearchScript :=
  {| s_url := portal;
     s_goto := Normal tt;
     s_query := fun _ => Normal (Some element);
     s_clear := Normal tt;
     s_type := fun _ => Normal tt;
     s_enter := Normal tt;
     s_enter_fallback := Normal tt;
     s_wait_results := Normal tt;
     s_row := Throw {| message := "Execution context was destroyed" |};
     s_buttons := Normal [{| touch_target := true; closest_td := Some 0 |}];
     s_modal_buttons := Normal ["Cancelar"; " Aceptar "] |}.


Definition login_as (cr : option Credentials) : LoginScript :=
  {| l_store := Normal cr;
     l_goto := Normal tt;
     l_wait_username := Normal tt;
     l_wait_password := Normal tt;
     l_type_username := Normal tt;
     l_type_password := Normal tt;
     l_submit := Normal tt;
     l_navigation := Normal tt;
     l_password_field := Normal false |}.

Definition testuser : Credentials :=
  {| username := "testuser"; password := "testpassword" |}.

Definition machine : InitScript :=
  {| i_browserPath := Normal "/Applications/Google Chrome.app/Contents/MacOS/Google Chrome";
     i_launch := Normal (BrowserProcess 1);
     i_newPage := Normal (PageTab 1);
     i_login := login_as (Some testuser) |}.

(** The service once [initialize] has returned. *)
Definition ready : World := run default_config [OpInitialize machine].

(** First attempt: the input is not found. Later attempts: the row
    shows $1,000.00. *)
Definition flaky (k : nat) : SearchScript :=
  match k with
  | 0 => portal_without_input
  | _ => portal_showing (Some (row_with "$1,000.00"))
  end.


(** *** C1: one review per attempt, not per call *)

(** How many times [searchExpediente] was entered. *)
Fixpoint searches (ms : list Method) : nat :=
  match ms with
  | [] => 0
  | MSearchExpediente :: t => S (searches t)
  | MAceptarExpediente :: t => searches t
  end.

Lemma Calls_reviewed cfg c env r s ws ms s' f :
  Calls cfg c env r s ws ms s' f ->
  totalRevisados s' = totalRevisados s + searches ms.
Proof.
  induction 1 as [r s row Hrow | r s Hge | r s ws ms s' f Hlt HC IH].
  - assert (totalRevisados
              (List.last (counted (search_closure c row) (incr_totalRevisados s))
                 (incr_totalRevisados s)) = S (totalRevisados s)) as ->.
    { unfold counted.
      destruct (is_true (hayDatos _)); [destruct (is_true (costosCoinciden _))|];
        reflexivity. }
    destruct (matched _); cbn [searches]; lia.
  - cbn [searches totalRevisados incr_totalRevisados]. lia.
  - rewrite IH. cbn [searches totalRevisados incr_totalRevisados]. lia.
Qed.

(** Every invocation of [searchExpediente], the internal ones of the
    retries included, adds one to [totalRevisados]. *)
Lemma searchExpediente_reviews_every_attempt cfg expediente c env w s res w' :
  current_stats w = Some s ->
  searchExpediente cfg expediente c env 0 w = (res, w') ->
  exists evs s',
    log w' = log w ++ evs /\
    current_stats w' = Some s' /\
    totalRevisados s' = totalRevisados s + searches (entered evs).
Proof.
  intros Hs E.
  destruct (searchExpediente_run _ _ _ _ _ _ _ _ _ Hs E)
    as (evs & s' & o & _ & S & _ & HC).
  exists evs, s'. split; [apply S|]. split; [by eapply Step_current|].
  by eapply Calls_reviewed.
Qed.

(** C1 (the code departs from it). A call of [searchExpediente] whose
    first attempt throws and whose second attempt succeeds returns the
    accepted outcome and has added two to [totalRevisados], one for
    each attempt, where the claim asks for exactly one. *)
Theorem search_retried_once_reviews_twice :
  current_stats ready = Some zero_stats /\
  exists o w',
    searchExpediente default_config "123456" (VNumber (literal 1000 1)) flaky 0 ready
    = (Normal o, w') /\
    validacion (fields o) = Some "Aceptado" /\
    totalRevisados <$> current_stats w' = Some 2.
Proof.
  split; [vm_compute; reflexivity|].
  eexists. eexists. split; [vm_compute; reflexivity|].
  split; vm_compute; reflexivity.
Qed.


(** *** C2 and C3: reconciliation of the costs *)

(** [x] and [y] are the same Number, or are both zero. *)
Definition same_double (x y : Number) : Prop :=
  match x, y with
  | Infinity a, Infinity b => a = b
  | Finite s m e, Finite s' m' e' =>
      (m = 0%N /\ m' = 0%N) \/ (s = s' /\ m = m' /\ e = e')
  | _, _ => False
  end.

Lemma strict_eq_same_double x y : strict_eq x y = true <-> same_double x y.
Proof.
  destruct x as [|a|s m e], y as [|b|s' m' e']; cbn; try (split; [discriminate|tauto]).
  - destruct a, b; cbn; split; congruence.
  - rewrite orb_true_iff, !andb_true_iff, !N.eqb_eq, Z.eqb_eq, eqb_true_iff.
    tauto.
Qed.

(** C2. When the cost cell has content, [costosCoinciden] is the strict
    equality of two Numbers: the cell's text, trimmed and stripped of
    [$] and [,], read by [parseFloat], and the expected cost read by
    [parseFloat]. It is true exactly when both are the same binary64
    value: there is no tolerance. "$1,000.00" matches 1000 and does not
    match 999.99. *)
Theorem cost_reconciliation_exact :
  (forall cells guardado,
      tieneContenido cells = true ->
      costosCoinciden (search_closure guardado (Some cells)) =
        Some (strict_eq (parseFloat (costoSistema cells)) (parseFloat_value guardado))
      /\ (costosCoinciden (search_closure guardado (Some cells)) = Some true <->
          same_double (parseFloat (costoSistema cells)) (parseFloat_value guardado)))
  /\ costosCoinciden
       (search_closure (VNumber (literal 1000 1)) (Some (row_with "$1,000.00")))
     = Some true
  /\ costosCoinciden
       (search_closure (VNumber (literal 99999 100)) (Some (row_with "$1,000.00")))
     = Some false.
Proof.
  split; [|split; vm_compute; reflexivity].
  intros cells guardado H. unfold search_closure. rewrite H. cbn.
  split; [reflexivity|].
  rewrite <- strict_eq_same_double. split; congruence.
Qed.

Lemma cost_reconciliation_exact_witness :
  tieneContenido (row_with "$1,234.50") = true /\
  (costosCoinciden
     (search_closure (VString "1234.5") (Some (row_with "$1,234.50"))) = Some true <->
   same_double (parseFloat (costoSistema (row_with "$1,234.50")))
     (parseFloat_value (VString "1234.5"))).
Proof.
  split; [reflexivity|].
  apply (proj1 cost_reconciliation_exact (row_with "$1,234.50") (VString "1234.5")).
  reflexivity.
Defined.

(** C3 (the code departs from it). [replace(',', '')] removes the first
    comma only: "$1,234,567.89" is normalized to "1234,567.89", which
    [parseFloat] reads as 1234, so the cell does not match the expected
    cost 1234567.89 that its text denotes. *)
Theorem second_separator_survives :
  costoSistema (row_with "$1,234,567.89") = "1234,567.89" /\
  parseFloat (costoSistema (row_with "$1,234,567.89")) = literal 1234 1 /\
  literal 1234 1 <> literal 123456789 100 /\
  costosCoinciden
    (search_closure (VNumber (literal 123456789 100))
       (Some (row_with "$1,234,567.89")))
  = Some false.
Proof.
  split; [reflexivity|]. split; [vm_compute; reflexivity|].
  split; [vm_compute; discriminate | vm_compute; reflexivity].
Qed.


(** *** C4: the counters stay ordered *)

(** C4. After any sequence of operations on a new service (searches
    with any outcomes, resets, and the other methods), the counters of
    [this.stats] satisfy [totalAceptados <= totalConCosto <=
    totalRevisados]; and so did every value the counters took on the
    way, each being the value some write left in them. *)
Theorem counters_always_ordered cfg ops :
  (exists s, current_stats (run cfg ops) = Some s /\ ordered s) /\
  Forall ordered (writes (log (run cfg ops))).
Proof.
  destruct (Tidy_run cfg ops) as [Hc Hh _]. by split.
Qed.


(** *** Attempts that all throw *)

Section Exhausted.

Variables (cfg : Config) (expediente : string) (c : JsValue)
  (env : nat -> SearchScript).

(** [AllThrow r w w']: from the invocation with [retryCount = r] in
    state [w] on, the body of every attempt throws, until the budget
    of retries is spent; [w'] is the state after the last attempt. *)
Inductive AllThrow : nat -> World -> World -> Prop :=
| all_throw_last r w e w' :
    search_try cfg expediente c (env r) (logged (Entered MSearchExpediente) w)
    = (Throw e, w') ->
    ~ r < maxRetries cfg ->
    AllThrow r w w'
| all_throw_retry r w e w1 w' :
    search_try cfg expediente c (env r) (logged (Entered MSearchExpediente) w)
    = (Throw e, w1) ->
    r < maxRetries cfg ->
    AllThrow (r + 1) (logged (Delay (retryDelay cfg)) w1) w' ->
    AllThrow r w w'.

Lemma AllThrow_run r w w' :
  AllThrow r w w' ->
  searchExpediente cfg expediente c env r w =
  (Normal {| fields := error_fields; out_stats := stats w' |}, w').
Proof.
  induction 1 as [r w e w' E Hge | r w e w1 w' E Hlt HA IH];
    rewrite searchExpediente_equation_1, bind_run; cbn [emit];
    rewrite try_catch_run, E;
    destruct (lt_dec r (maxRetries cfg)); try lia.
  - reflexivity.
  - rewrite bind_run; cbn [delay emit]. exact IH.
Qed.

End Exhausted.


(** *** C5: rows without data *)

(** No row, no cost cell, or a cost cell whose trimmed text is empty,
    "$0.00" or "$0". *)
Definition no_data_row (row : option (list string)) : Prop :=
  match row with
  | None => True
  | Some cells =>
      match cells !! 2 with
      | None => True
      | Some t => trim t = "" \/ trim t = "$0.00" \/ trim t = "$0"
      end
  end.

Lemma no_data_row_closure c row : no_data_row row -> search_closure c row = no_data.
Proof.
  destruct row as [cells|]; [|done]. cbn. unfold tieneContenido.
  destruct (cells !! 2) as [t|]; [|done].
  intros [H|[H|H]]; rewrite H; cbn; by rewrite ?andb_false_r.
Qed.





(** The other case of C5: when the extraction of the row is rejected in
    every attempt, no row with data is extracted and the outcome is the
    one of the exhausted search. *)
Lemma no_data_all_attempts_throw :
  exists o w',
    searchExpediente default_config "123456" (VNumber (literal 1000 1))
      (fun _ => portal_without_table) 0 ready = (Normal o, w') /\
    AllThrow default_config "123456" (VNumber (literal 1000 1))
      (fun _ => portal_without_table) 0 ready w' /\
    (forall k row, s_row ((fun _ : nat => portal_without_table) k) = Normal row ->
                   no_data_row row) /\
    fields o = error_fields.
Proof.
  eexists. eexists. split; [vm_compute; reflexivity|].
  split; [|split; [intros k row [=] | reflexivity]].
  eapply all_throw_retry; [vm_compute; reflexivity | cbn; lia |].
  eapply all_throw_retry; [vm_compute; reflexivity | cbn; lia |].
  eapply all_throw_retry; [vm_compute; reflexivity | cbn; lia |].
  eapply all_throw_last; [vm_compute; reflexivity | cbn; lia].
Qed.



(** *** C6: a match whose acceptance fails *)





(** The acceptance fails exactly when [aceptarExpediente] returns
    [false]. *)
Lemma aceptarExpediente_returns sc l r w :
  results w !! l = Some r -> is_Some (page w) ->
  (aceptarExpediente sc l w).1 = Normal (accept_ok sc).
Proof.
  intros Hr Hp. destruct (aceptarExpediente_run sc l r w Hr Hp) as (evs & _ & ->).
  reflexivity.
Qed.




(** *** C7: attempts exhausted *)

(** C7. When the body of every attempt throws until the retries are
    spent, [searchExpediente] does not throw: it returns the outcome
    whose [validacion] is 'Error en consulta', whose other properties
    are empty strings, and whose [stats] is the service's own
    statistics object. *)
Theorem exhausted_search_returns_error_outcome cfg expediente c env w w' :
  AllThrow cfg expediente c env 0 w w' ->
  exists o,
    searchExpediente cfg expediente c env 0 w = (Normal o, w') /\
    validacion (fields o) = Some "Error en consulta" /\
    costo (fields o) = Some (Plain "") /\
    estatus (fields o) = Some "" /\
    notas (fields o) = Some "" /\
    fechaRegistro (fields o) = Some "" /\
    servicio (fields o) = Some "" /\
    subservicio (fields o) = Some "" /\
    out_stats o = stats w'.
Proof.
  intros H. eexists. split; [by apply AllThrow_run|]. by repeat split.
Qed.

Lemma exhausted_search_returns_error_outcome_witness :
  let w' :=
    (searchExpediente default_config "123456" (VNumber (literal 1000 1))
       (fun _ => portal_without_input) 0 ready).2 in
  AllThrow default_config "123456" (VNumber (literal 1000 1))
    (fun _ => portal_without_input) 0 ready w' /\
  exists o,
    searchExpediente default_config "123456" (VNumber (literal 1000 1))
      (fun _ => portal_without_input) 0 ready = (Normal o, w') /\
    validacion (fields o) = Some "Error en consulta" /\
    out_stats o = stats w' /\
    totalRevisados <$> current_stats w' = Some 4.
Proof.
  intros w'.
  assert (A : AllThrow default_config "123456" (VNumber (literal 1000 1))
                (fun _ => portal_without_input) 0 ready w').
  { eapply all_throw_retry; [vm_compute; reflexivity | cbn; lia |].
    eapply all_throw_retry; [vm_compute; reflexivity | cbn; lia |].
    eapply all_throw_retry; [vm_compute; reflexivity | cbn; lia |].
    eapply all_throw_last; [vm_compute; reflexivity | cbn; lia]. }
  split; [exact A|].
  destruct (exhausted_search_returns_error_outcome _ _ _ _ _ _ A)
    as (o & E & V & _ & _ & _ & _ & _ & _ & R).
  exists o. split; [exact E|]. split; [exact V|].
  split; [exact R|]. vm_compute. reflexivity.
Defined.


(** *** C8 and C10: login *)

Definition missing_credentials : Error :=
  {| message := "No se encontraron credenciales configuradas" |}.

Lemma login_null_credentials cfg sc w :
  getCredentials (l_store sc) = None ->
  login cfg sc w = (Throw missing_credentials, w).
Proof.
  intros H. unfold login. rewrite try_catch_run, H. reflexivity.
Qed.

(** C8, as the code has it. [login] throws the missing-credentials
    error, before any call to the portal, when the stored credentials
    are [null] (or the store cannot be read); it makes no check of the
    username or of the password. *)
Theorem login_without_credentials cfg sc w :
  getCredentials (l_store sc) = None ->
  login cfg sc w = (Throw missing_credentials, w).
Proof.
  intros H. by apply login_null_credentials.
Qed.

Lemma login_without_credentials_witness :
  getCredentials (l_store (login_as None)) = None /\
  login default_config (login_as None) ready = (Throw missing_credentials, ready).
Proof.
  split; [reflexivity|].
  apply (login_without_credentials default_config (login_as None) ready).
  reflexivity.
Defined.

(** C8 as stated fails: with an empty username [login] does not throw;
    it goes to the portal, types the credentials and returns [true]. *)
Lemma login_with_empty_username :
  exists w',
    login default_config
      (login_as (Some {| username := ""; password := "testpassword" |})) ready
    = (Normal true, w') /\
    Did (Goto portal) ∈ log w' /\
    Did (TypeInto InputUsername "") ∈ log w'.
Proof.
  eexists. split; [vm_compute; reflexivity|].
  split; vm_compute; repeat first [apply list_elem_of_here | apply list_elem_of_further].
Qed.

(** A method that, when it returns, returns a value in [P]. *)
Definition returns {A} (P : A -> Prop) (m : M A) : Prop :=
  forall w a w', m w = (Normal a, w') -> P a.

Lemma returns_bind {A B} (P : B -> Prop) (m : M A) (k : A -> M B) :
  (forall a, returns P (k a)) -> returns P (bind m k).
Proof.
  intros Hk w b w'. rewrite bind_run.
  destruct (m w) as [[a|e] w1]; [apply Hk | discriminate].
Qed.

Lemma returns_try_catch {A} (P : A -> Prop) (m : M A) (h : Error -> M A) :
  returns P m -> (forall e, returns P (h e)) -> returns P (try_catch m h).
Proof.
  intros Hm Hh w a w'. rewrite try_catch_run.
  destruct (m w) as [[a0|e] w1] eqn:E; [|apply Hh].
  intros [= <- <-]. by eapply Hm.
Qed.

Lemma returns_throw {A} (P : A -> Prop) e : returns P (@throw A e).
Proof. intros w a w'. discriminate. Qed.

Lemma returns_ret {A} (P : A -> Prop) a : P a -> returns P (ret a).
Proof. intros H w a' w' [= <- _]. exact H. Qed.

Lemma login_returns_true cfg sc : returns (fun v => v = true) (login cfg sc).
Proof.
  unfold login. apply returns_try_catch; [| intros e; apply returns_throw].
  destruct (getCredentials (l_store sc)); [| apply returns_throw].
  do 8 (apply returns_bind; intros ?).
  destruct (negb _); [apply returns_throw|].
  apply returns_bind; intros _. by apply returns_ret.
Qed.

(** A method that throws from every state. *)
Definition throws {A} (m : M A) : Prop :=
  forall w, exists e w', m w = (Throw e, w').

Lemma throws_page_call {A B} a e (k : A -> M B) :
  throws (bind (page_call a (Throw e)) k).
Proof.
  intros w. rewrite bind_run. unfold page_call.
  destruct (page w); eauto.
Qed.

Lemma throws_after_page_call {A B} a (c : Completion A) (k : A -> M B) :
  (forall x, throws (k x)) -> throws (bind (page_call a c) k).
Proof.
  intros Hk w. rewrite bind_run. unfold page_call.
  destruct (page w); [|eauto].
  destruct c as [x|e]; [apply Hk | eauto].
Qed.

Lemma throws_after_resolved {A B} a (x : A) (k : A -> M B) :
  throws (k x) -> throws (bind (page_call a (Normal x)) k).
Proof.
  intros Hk w. rewrite bind_run. unfold page_call.
  destruct (page w); [apply Hk | eauto].
Qed.

Lemma throws_rethrown {A} (m : M A) : throws m -> throws (try_catch m throw).
Proof.
  intros Hm w. rewrite try_catch_run.
  destruct (Hm w) as (e & w' & ->). eauto.
Qed.

(** C10. [login] never returns [false]: when it returns, it returns
    [true]; without credentials, when waiting for either input throws,
    and when the password input is still in the document after the
    submission, it throws. *)
Theorem login_true_or_throws cfg sc w res w' :
  login cfg sc w = (res, w') ->
  (forall v, res = Normal v -> v = true) /\
  (getCredentials (l_store sc) = None -> exists e, res = Throw e) /\
  (forall e, l_wait_username sc = Throw e \/ l_wait_password sc = Throw e ->
             exists e', res = Throw e') /\
  (l_password_field sc = Normal true -> exists e, res = Throw e).
Proof.
  intros E. split; [|split; [|split]].
  - intros v ->. by eapply login_returns_true.
  - intros H. rewrite login_null_credentials in E by done.
    injection E as <- _. eauto.
  - intros e H.
    assert (T : throws (login cfg sc)).
    { unfold login. apply throws_rethrown.
      destruct (getCredentials (l_store sc)); [| intros ?; cbn; eauto].
      apply throws_after_page_call; intros _.
      destruct H as [-> | ->]; [apply throws_page_call|].
      apply throws_after_page_call; intros _. apply throws_page_call. }
    destruct (T w) as (e' & w1 & E'). rewrite E' in E.
    injection E as <- _. eauto.
  - intros H.
    assert (T : throws (login cfg sc)).
    { unfold login. apply throws_rethrown.
      destruct (getCredentials (l_store sc)); [| intros ?; cbn; eauto].
      do 7 (apply throws_after_page_call; intros _).
      rewrite H; cbn [cmap negb].
      apply throws_after_resolved. intros ?; cbn; eauto. }
    destruct (T w) as (e' & w1 & E'). rewrite E' in E.
    injection E as <- _. eauto.
Qed.

Lemma login_true_or_throws_witness :
  let r := login default_config (login_as (Some testuser)) ready in
  r.1 = Normal true /\ (forall v, r.1 = Normal v -> v = true).
Proof.
  intros r. split; [vm_compute; reflexivity|].
  apply (login_true_or_throws default_config (login_as (Some testuser)) ready
           r.1 r.2).
  apply surjective_pairing.
Defined.


(** *** C9: closing twice *)

Lemma close_closed answer w : browser w = None -> close answer w = (Normal tt, w).
Proof. intros H. unfold close. by rewrite H. Qed.

Lemma close_open w b :
  browser w = Some b ->
  close (Normal tt) w =
  (Normal tt,
   with_page None (with_browser None (extend [Delay 2000; Did BrowserClose] w))).
Proof.
  intros H. unfold close. rewrite H. unfold bind, delay, emit, call. cbn.
  f_equal. apply world_eq; cbn; rewrite <- ?app_assoc; reflexivity.
Qed.

(** C9, as the code has it. In any state the service can be in, [close]
    on a closed session returns at once and changes nothing; and when
    the browser's own [close()] resolves, [close] returns with
    [this.browser] and [this.page] null, so that a second [close],
    whatever the browser would answer, returns and changes nothing.
    ([close] has no handler: when [browser.close()] rejects, so does
    [close], and the session stays open.) *)
Theorem close_twice cfg ops answer1 answer2 :
  browser (run cfg ops) = None \/ answer1 = Normal tt ->
  exists w1,
    close answer1 (run cfg ops) = (Normal tt, w1) /\
    close answer2 w1 = (Normal tt, w1) /\
    browser w1 = None /\ page w1 = None /\
    (browser (run cfg ops) = None -> w1 = run cfg ops).
Proof.
  intros H. destruct (browser (run cfg ops)) as [b|] eqn:Hb.
  - destruct H as [H | ->]; [discriminate|].
    eexists. split; [by eapply close_open|].
    split; [by apply close_closed|]. by repeat split.
  - exists (run cfg ops). split; [by apply close_closed|].
    split; [by apply close_closed|]. split; [done|].
    split; [|done]. by apply (tidy_session _ (Tidy_run cfg ops)).
Qed.

Lemma close_twice_witness :
  (browser (run default_config [OpInitialize machine]) = None \/
   Normal tt = Normal tt) /\
  exists w1,
    close (Normal tt) ready = (Normal tt, w1) /\
    close (Throw {| message := "Protocol error: Connection closed" |}) w1
    = (Normal tt, w1) /\
    browser w1 = None /\ page w1 = None.
Proof.
  split; [right; reflexivity|].
  destruct (close_twice default_config [OpInitialize machine] (Normal tt)
              (Throw {| message := "Protocol error: Connection closed" |})
              (or_intror eq_refl))
    as (w1 & E1 & E2 & Hb & Hp & _).
  exists w1. by repeat split.
Defined.

(** C9 as stated fails: on an open session whose browser rejects its
    [close()], [close] throws and leaves the browser and the page set. *)
Lemma close_rejected_throws :
  exists w',
    close (Throw {| message := "Protocol error: Connection closed" |}) ready
    = (Throw {| message := "Protocol error: Connection closed" |}, w') /\
    browser w' = Some (BrowserProcess 1) /\
    page w' = Some (PageTab 1).
Proof.
  eexists. split; [vm_compute; reflexivity|]. split; reflexivity.
Qed.

End Properties.

(** ** Further properties of the service *)

Module Further.

Import JsString JsNumber Service Properties.
Local Open Scope list_scope.
Local Open Scope js_scope.


(** *** What the methods never do *)

Lemma searchExpediente_returns cfg expediente c env n :
  forall r w, maxRetries cfg - r = n ->
    exists o w', searchExpediente cfg expediente c env r w = (Normal o, w').
Proof.
  induction n as [|n IH]; intros r w Hn;
    rewrite searchExpediente_equation_1, bind_run; cbn [emit];
    rewrite try_catch_run;
    destruct (search_try cfg expediente c (env r) _) as [[o|e] w1]; eauto;
    destruct (lt_dec r (maxRetries cfg)) as [Hlt|Hge]; eauto; try lia.
  rewrite bind_run; cbn [delay emit]. apply IH. lia.
Qed.

(** [searchExpediente] never throws: whatever the state of the service
    (a page that is null included) and whatever the portal does, it
    returns an outcome. *)
Theorem searchExpediente_never_throws cfg expediente c env retryCount w :
  exists o w',
    searchExpediente cfg expediente c env retryCount w = (Normal o, w').
Proof. by eapply searchExpediente_returns. Qed.

(** [aceptarExpediente] never throws either. It returns [true] exactly
    when the page is there and both clicks were made, and then it has
    left the result objects as they were. *)
Theorem aceptarExpediente_never_throws sc l w :
  exists b w',
    aceptarExpediente sc l w = (Normal b, w') /\
    (b = true <-> is_Some (page w) /\ accept_ok sc = true) /\
    (b = true -> results w' = results w).
Proof.
  unfold aceptarExpediente, accept_ok, bind, try_catch, page_call, delay, emit,
    write_result, ret, throw.
  cbn. destruct (page w) as [p|] eqn:Hp; cbn.
  2: { destruct (results w !! l); cbn;
         (eexists; eexists; split; [reflexivity|]);
         (split; [split; [done | by intros [[? ?] _]] | done]). }
  destruct (s_buttons sc) as [bs|e]; cbn.
  2: { destruct (results w !! l); cbn;
         (eexists; eexists; split; [reflexivity|]);
         (split; [split; [done | by intros [_ ?]] | done]). }
  destruct (accept_closure bs); cbn.
  2: { destruct (results w !! l); cbn;
         (eexists; eexists; split; [reflexivity|]);
         (split; [split; [done | by intros [_ ?]] | done]). }
  rewrite Hp. destruct (s_modal_buttons sc) as [ms|e]; cbn.
  2: { destruct (results w !! l); cbn;
         (eexists; eexists; split; [reflexivity|]);
         (split; [split; [done | by intros [_ ?]] | done]). }
  destruct (confirm_closure ms); cbn.
  2: { destruct (results w !! l); cbn;
         (eexists; eexists; split; [reflexivity|]);
         (split; [split; [done | by intros [_ ?]] | done]). }
  eexists. eexists. split; [reflexivity|]. split; [|done].
  split; [by eauto | done].
Qed.


(** *** The outcome and the counters of one call *)

(** The two shapes of what the search closure returns. *)
Lemma search_closure_shape c row :
  search_closure c row = no_data \/
  exists cells b,
    row = Some cells /\ tieneContenido cells = true /\
    b = strict_eq (parseFloat (costoSistema cells)) (parseFloat_value c) /\
    search_closure c row =
    {| costo := Some (CurrencyMXN (parseFloat (costoSistema cells)));
       estatus := Some (cell_text cells 3);
       notas := Some (cell_text cells 4);
       fechaRegistro := Some (cell_text cells 5);
       servicio := Some (cell_text cells 6);
       subservicio := Some (cell_text cells 7);
       validacion := Some (if b then "Aceptado" else "No aceptado");
       hayDatos := Some true;
       costosCoinciden := Some b |}.
Proof.
  destruct row as [cells|]; [|by left]. cbn.
  destruct (tieneContenido cells) eqn:H; [|by left].
  right. exists cells. eexists. by repeat split.
Qed.

(** An outcome that shows a cost read from the portal. *)
Definition has_cost (f : SearchResult) : bool :=
  match costo f with
  | Some (CurrencyMXN _) => true
  | _ => false
  end.

Definition one_if (b : bool) : nat := if b then 1 else 0.

Lemma Calls_accounting cfg c env r s ws ms s' f :
  Calls cfg c env r s ws ms s' f ->
  totalConCosto s' = totalConCosto s + one_if (has_cost f) /\
  totalAceptados s' = totalAceptados s + one_if (is_true (costosCoinciden f)).
Proof.
  induction 1 as [r s row Hrow | r s Hge | r s ws ms s' f Hlt HC IH].
  - destruct (search_closure_shape c row) as [-> | (cells & b & _ & _ & _ & ->)].
    + cbn. lia.
    + unfold final_fields, matched, counted, has_cost; cbn.
      destruct b, (accept_ok (env r)); cbn; lia.
  - cbn. lia.
  - destruct IH as [-> ->]. cbn. lia.
Qed.

Lemma Calls_attempts cfg c env r s ws ms s' f :
  Calls cfg c env r s ws ms s' f ->
  1 <= searches ms /\ searches ms <= S (maxRetries cfg - r).
Proof.
  induction 1 as [r s row Hrow | r s Hge | r s ws ms s' f Hlt HC IH].
  - destruct (matched _); cbn; lia.
  - cbn. lia.
  - cbn [searches]. lia.
Qed.

(** The counters agree with the outcome a call returns: [totalConCosto]
    grows by one exactly when the outcome shows a cost read from the
    portal, [totalAceptados] by one exactly when its [costosCoinciden] is
    true (whether or not the acceptance then succeeded), and
    [totalRevisados] by the number of attempts, which is at least one
    and at most [maxRetries + 1]. *)
Theorem counters_agree_with_outcome cfg expediente c env w s o w' :
  current_stats w = Some s ->
  searchExpediente cfg expediente c env 0 w = (Normal o, w') ->
  exists s',
    current_stats w' = Some s' /\
    totalConCosto s' = totalConCosto s + one_if (has_cost (fields o)) /\
    totalAceptados s' =
      totalAceptados s + one_if (is_true (costosCoinciden (fields o))) /\
    totalRevisados s < totalRevisados s' /\
    totalRevisados s' <= totalRevisados s + maxRetries cfg + 1.
Proof.
  intros Hs E.
  destruct (searchExpediente_run _ _ _ _ _ _ _ _ _ Hs E)
    as (evs & s' & o' & [= <-] & S & _ & HC).
  exists s'. split; [by eapply Step_current|].
  destruct (Calls_accounting _ _ _ _ _ _ _ _ _ HC) as [H1 H2].
  destruct (Calls_attempts _ _ _ _ _ _ _ _ _ HC) as [H3 H4].
  rewrite (Calls_reviewed _ _ _ _ _ _ _ _ _ HC).
  repeat split; try done; lia.
Qed.

Lemma counters_agree_with_outcome_witness :
  exists o w',
    searchExpediente default_config "123456" (VNumber (literal 99999 100))
      (fun _ => portal_showing (Some (row_with "$1,000.00"))) 0 ready
    = (Normal o, w') /\
    validacion (fields o) = Some "No aceptado" /\
    exists s',
      current_stats w' = Some s' /\
      totalConCosto s' = totalConCosto zero_stats + one_if (has_cost (fields o)) /\
      totalAceptados s' =
        totalAceptados zero_stats + one_if (is_true (costosCoinciden (fields o))) /\
      totalRevisados zero_stats < totalRevisados s' /\
      totalRevisados s' <= totalRevisados zero_stats + maxRetries default_config + 1.
Proof.
  eexists. eexists. split; [vm_compute; reflexivity|].
  split; [reflexivity|].
  eapply (counters_agree_with_outcome default_config "123456"
            (VNumber (literal 99999 100))
            (fun _ => portal_showing (Some (row_with "$1,000.00")))
            ready zero_stats).
  - reflexivity.
  - vm_compute. reflexivity.
Defined.

(** *** What the [validacion] of an outcome says *)

Lemma Calls_validacion cfg c env r s ws ms s' f :
  Calls cfg c env r s ws ms s' f ->
  (validacion f = None /\ costo f = None /\ costosCoinciden f = Some false) \/
  (validacion f = Some "No aceptado" /\ costosCoinciden f = Some false) \/
  (validacion f = Some "Error en aceptación" /\ costosCoinciden f = Some true /\
   (MAceptarExpediente ∈ ms)) \/
  (validacion f = Some "Error en consulta" /\ f = error_fields) \/
  (validacion f = Some "Aceptado" /\ costosCoinciden f = Some true /\
   (MAceptarExpediente ∈ ms) /\
   exists k row, r <= k /\ s_row (env k) = Normal row /\ accept_ok (env k) = true).
Proof.
  induction 1 as [r s row Hrow | r s Hge | r s ws ms s' f Hlt HC IH].
  - destruct (search_closure_shape c row) as [-> | (cells & b & _ & _ & _ & ->)].
    + by left.
    + unfold final_fields, matched; cbn.
      destruct b; cbn; [|by right; left].
      destruct (accept_ok (env r)) eqn:Hok; cbn.
      * do 4 right. repeat split; [apply list_elem_of_further, list_elem_of_here|].
        exists r, row. by repeat split.
      * right; right; left.
        repeat split. apply list_elem_of_further, list_elem_of_here.
  - by right; right; right; left.
  - destruct IH as [H|[H|[(H1 & H2 & H3)|[H|(H1 & H2 & H3 & k & row & H4 & H5)]]]].
    + by left.
    + by right; left.
    + right; right; left. repeat split; try done. by apply list_elem_of_further.
    + by right; right; right; left.
    + do 4 right. repeat split; try done; [by apply list_elem_of_further|].
      exists k, row. split; [lia | done].
Qed.

(** An outcome says 'Aceptado' only when the costs matched, the call
    entered [aceptarExpediente], and on the portal of the attempt that
    returned both clicks of the acceptance were made. *)
Theorem aceptado_means_accepted cfg expediente c env w s o w' :
  current_stats w = Some s ->
  searchExpediente cfg expediente c env 0 w = (Normal o, w') ->
  validacion (fields o) = Some "Aceptado" ->
  costosCoinciden (fields o) = Some true /\
  (exists evs, log w' = log w ++ evs /\ (MAceptarExpediente ∈ entered evs)) /\
  exists k row, s_row (env k) = Normal row /\ accept_ok (env k) = true.
Proof.
  intros Hs E V.
  destruct (searchExpediente_run _ _ _ _ _ _ _ _ _ Hs E)
    as (evs & s' & o' & [= <-] & S & _ & HC).
  destruct (Calls_validacion _ _ _ _ _ _ _ _ _ HC)
    as [(H & _)|[(H & _)|[(H & _)|[(H & _)|(_ & H2 & H3 & k & row & _ & H4 & H5)]]]];
    try congruence.
  split; [done|]. split; [exists evs; split; [apply S | done]|].
  by exists k, row.
Qed.

Lemma aceptado_means_accepted_witness :
  exists o w',
    searchExpediente default_config "123456" (VNumber (literal 1000 1))
      (fun _ => portal_showing (Some (row_with "$1,000.00"))) 0 ready
    = (Normal o, w') /\
    validacion (fields o) = Some "Aceptado" /\
    costosCoinciden (fields o) = Some true.
Proof.
  eexists. eexists. split; [vm_compute; reflexivity|].
  split; [reflexivity|].
  eapply (aceptado_means_accepted default_config "123456"
            (VNumber (literal 1000 1))
            (fun _ => portal_showing (Some (row_with "$1,000.00")))
            ready zero_stats).
  - reflexivity.
  - vm_compute. reflexivity.
  - reflexivity.
Defined.

(** The [validacion] of an outcome is absent or one of the four texts;
    it is absent only on an outcome without a cost whose
    [costosCoinciden] is false, and it is 'Error en consulta' only on
    the outcome of exhausted attempts. *)
Theorem validacion_range cfg expediente c env w s o w' :
  current_stats w = Some s ->
  searchExpediente cfg expediente c env 0 w = (Normal o, w') ->
  (validacion (fields o) = None /\ costo (fields o) = None /\
   costosCoinciden (fields o) = Some false) \/
  (validacion (fields o) = Some "No aceptado" /\
   costosCoinciden (fields o) = Some false) \/
  (validacion (fields o) = Some "Error en aceptación" /\
   costosCoinciden (fields o) = Some true) \/
  (validacion (fields o) = Some "Error en consulta" /\ fields o = error_fields) \/
  (validacion (fields o) = Some "Aceptado" /\
   costosCoinciden (fields o) = Some true).
Proof.
  intros Hs E.
  destruct (searchExpediente_run _ _ _ _ _ _ _ _ _ Hs E)
    as (evs & s' & o' & [= <-] & S & _ & HC).
  destruct (Calls_validacion _ _ _ _ _ _ _ _ _ HC)
    as [H|[H|[(H1 & H2 & _)|[H|(H1 & H2 & _)]]]].
  - by left.
  - by right; left.
  - by right; right; left.
  - by right; right; right; left.
  - by do 4 right.
Qed.

Lemma validacion_range_witness :
  exists o w',
    searchExpediente default_config "123456" (VNumber (literal 1000 1))
      (fun _ => portal_showing (Some (row_with "$0"))) 0 ready
    = (Normal o, w') /\
    ((validacion (fields o) = None /\ costo (fields o) = None /\
      costosCoinciden (fields o) = Some false) \/
     (validacion (fields o) = Some "No aceptado" /\
      costosCoinciden (fields o) = Some false) \/
     (validacion (fields o) = Some "Error en aceptación" /\
      costosCoinciden (fields o) = Some true) \/
     (validacion (fields o) = Some "Error en consulta" /\ fields o = error_fields) \/
     (validacion (fields o) = Some "Aceptado" /\
      costosCoinciden (fields o) = Some true)).
Proof.
  eexists. eexists. split; [vm_compute; reflexivity|].
  eapply (validacion_range default_config "123456" (VNumber (literal 1000 1))
            (fun _ => portal_showing (Some (row_with "$0"))) ready zero_stats).
  - reflexivity.
  - vm_compute. reflexivity.
Defined.


(** *** The statistics an outcome carries *)

(** The [stats] of an outcome is the service's own object, not a copy:
    two calls in a row hand out the same reference, and what the first
    outcome shows through it has changed once the second call has
    returned (the second call's review at least). *)
Theorem outcome_stats_is_live cfg e1 c1 env1 e2 c2 env2 w s o1 w1 o2 w2 :
  current_stats w = Some s ->
  searchExpediente cfg e1 c1 env1 0 w = (Normal o1, w1) ->
  searchExpediente cfg e2 c2 env2 0 w1 = (Normal o2, w2) ->
  out_stats o2 = out_stats o1 /\
  exists s1 s2,
    statsObjects w1 !! out_stats o1 = Some s1 /\
    statsObjects w2 !! out_stats o1 = Some s2 /\
    totalRevisados s1 < totalRevisados s2.
Proof.
  intros Hs E1 E2.
  destruct (searchExpediente_run _ _ _ _ _ _ _ _ _ Hs E1)
    as (evs1 & s1 & o & [= <-] & S1 & O1 & HC1).
  assert (H1 := Step_current _ _ _ _ _ Hs S1).
  destruct (searchExpediente_run _ _ _ _ _ _ _ _ _ H1 E2)
    as (evs2 & s2 & o & [= <-] & S2 & O2 & HC2).
  assert (H2 := Step_current _ _ _ _ _ H1 S2).
  assert (R : stats w1 = stats w) by apply S1.
  assert (R2 : stats w2 = stats w1) by apply S2.
  split; [congruence|].
  exists s1, s2. unfold current_stats in H1, H2.
  rewrite O1, <- R. split; [done|]. split; [by rewrite <- R2|].
  rewrite (Calls_reviewed _ _ _ _ _ _ _ _ _ HC2).
  destruct (Calls_attempts _ _ _ _ _ _ _ _ _ HC2). lia.
Qed.

Lemma outcome_stats_is_live_witness :
  exists o1 w1 o2 w2,
    searchExpediente default_config "1" (VNumber (literal 1000 1))
      (fun _ => portal_showing None) 0 ready = (Normal o1, w1) /\
    searchExpediente default_config "2" (VNumber (literal 1000 1))
      (fun _ => portal_showing None) 0 w1 = (Normal o2, w2) /\
    out_stats o2 = out_stats o1 /\
    exists s1 s2,
      statsObjects w1 !! out_stats o1 = Some s1 /\
      statsObjects w2 !! out_stats o1 = Some s2 /\
      totalRevisados s1 < totalRevisados s2.
Proof.
  eexists. eexists. eexists. eexists.
  split; [vm_compute; reflexivity|]. split; [vm_compute; reflexivity|].
  eapply (outcome_stats_is_live default_config "1" (VNumber (literal 1000 1))
            (fun _ => portal_showing None) "2" (VNumber (literal 1000 1))
            (fun _ => portal_showing None) ready zero_stats).
  - reflexivity.
  - vm_compute. reflexivity.
  - vm_compute. reflexivity.
Defined.

(** [resetStats] always leaves the three counters at 0, and it does so
    in a new object: what an outcome returned before the reset shows
    through its [stats] is what it showed before, and no later search
    changes it. *)
Theorem resetStats_detaches cfg expediente c env w s o w' l :
  current_stats w = Some s ->
  l < length (statsObjects w) ->
  searchExpediente cfg expediente c env 0 (resetStats w).2 = (Normal o, w') ->
  current_stats (resetStats w).2 = Some zero_stats /\
  out_stats o <> l /\
  statsObjects (resetStats w).2 !! l = statsObjects w !! l /\
  statsObjects w' !! l = statsObjects w !! l.
Proof.
  intros Hs Hl E.
  assert (H0 : current_stats (resetStats w).2 = Some zero_stats).
  { unfold current_stats; cbn. by apply list_lookup_middle. }
  destruct (searchExpediente_run _ _ _ _ _ _ _ _ _ H0 E)
    as (evs & s' & o' & [= <-] & S & O & HC).
  split; [done|]. cbn in O. split; [lia|].
  assert (R : statsObjects (resetStats w).2 !! l = statsObjects w !! l).
  { cbn. by apply lookup_app_l. }
  split; [done|].
  rewrite (step_objects _ _ _ _ S). cbn [resetStats snd stats with_stats logged].
  rewrite list_lookup_insert_ne by lia. exact R.
Qed.

Lemma resetStats_detaches_witness :
  exists o w',
    searchExpediente default_config "123456" (VNumber (literal 1000 1))
      (fun _ => portal_showing (Some (row_with "$1,000.00"))) 0 (resetStats ready).2
    = (Normal o, w') /\
    current_stats (resetStats ready).2 = Some zero_stats /\
    out_stats o <> 0 /\
    statsObjects (resetStats ready).2 !! 0 = statsObjects ready !! 0 /\
    statsObjects w' !! 0 = statsObjects ready !! 0.
Proof.
  eexists. eexists. split; [vm_compute; reflexivity|].
  eapply (resetStats_detaches default_config "123456" (VNumber (literal 1000 1))
            (fun _ => portal_showing (Some (row_with "$1,000.00")))
            ready zero_stats).
  - reflexivity.
  - vm_compute. lia.
  - vm_compute. reflexivity.
Defined.

(** *** The search closure *)

Lemma tieneContenido_false cells :
  tieneContenido cells = false <-> no_data_row (Some cells).
Proof.
  unfold tieneContenido, no_data_row.
  destruct (cells !! 2) as [t|]; [|done].
  rewrite !andb_false_iff, !negb_false_iff, !String.eqb_eq.
  split.
  - intros [[[-> | H] | H] | H]; tauto.
  - intros [H | [H | H]]; tauto.
Qed.

(** The closure answers "no data" exactly when there is no row, no cost
    cell, or a cost cell whose trimmed text is empty, "$0.00" or "$0";
    in every other case its result has all of the cost, the five texts
    and a [validacion] that is 'Aceptado' or 'No aceptado' as
    [costosCoinciden] is true or false. *)
Theorem search_closure_no_data_iff c row :
  (search_closure c row = no_data <-> no_data_row row) /\
  (hayDatos (search_closure c row) = Some true <-> ~ no_data_row row) /\
  (~ no_data_row row ->
   exists x (b : bool) e n f s u,
     search_closure c row =
     {| costo := Some (CurrencyMXN x); estatus := Some e; notas := Some n;
        fechaRegistro := Some f; servicio := Some s; subservicio := Some u;
        validacion := Some (if b then "Aceptado" else "No aceptado");
        hayDatos := Some true; costosCoinciden := Some b |}).
Proof.
  assert (A : search_closure c row = no_data <-> no_data_row row).
  { split; [|apply no_data_row_closure].
    destruct row as [cells|]; [|done]. intros H.
    apply tieneContenido_false. cbn in H.
    by destruct (tieneContenido cells). }
  split; [exact A|].
  destruct (search_closure_shape c row) as [E | (cells & b & -> & Ht & _ & E)].
  - assert (N : no_data_row row) by by apply A.
    rewrite E. cbn. split; [split; [discriminate | tauto] | tauto].
  - assert (N : ~ no_data_row (Some cells)).
    { rewrite <- tieneContenido_false. congruence. }
    rewrite E. cbn. split; [split; done|].
    intros _. by do 7 eexists.
Qed.

Lemma search_closure_no_data_iff_witness :
  ~ no_data_row (Some (row_with "$12.50")) /\
  exists x (b : bool) e n f s u,
    search_closure (VString "12.5") (Some (row_with "$12.50")) =
    {| costo := Some (CurrencyMXN x); estatus := Some e; notas := Some n;
       fechaRegistro := Some f; servicio := Some s; subservicio := Some u;
       validacion := Some (if b then "Aceptado" else "No aceptado");
       hayDatos := Some true; costosCoinciden := Some b |}.
Proof.
  assert (N : ~ no_data_row (Some (row_with "$12.50"))).
  { vm_compute. intros [H | [H | H]]; discriminate H. }
  split; [exact N|].
  exact (proj2 (proj2 (search_closure_no_data_iff (VString "12.5")
                         (Some (row_with "$12.50")))) N).
Defined.


(** *** Finding the search input *)

(** What a selector finds on the portal: a query that rejects finds
    nothing. *)
Definition found (sc : SearchScript) (sel : Selector) : option ElementHandle :=
  match s_query sc sel with
  | Normal (Some el) => Some el
  | _ => None
  end.

Definition queries (sels : list Selector) : list Event :=
  map (fun sel => Did (Query sel)) sels.

(** The loop over the selectors never throws. On an open page it
    queries the selectors in their order, stops at the first that finds
    an element (a query that rejects counts as finding none) and returns
    that element; it returns null when none finds any, having queried
    them all. *)
Theorem find_input_first_found sc sels w :
  is_Some (page w) ->
  (exists pre sel post el,
      sels = pre ++ sel :: post /\
      (forall x, x ∈ pre -> found sc x = None) /\
      found sc sel = Some el /\
      find_input sc sels w =
      (Normal (Some el), extend (queries (pre ++ [sel])) w))
  \/
  ((forall x, x ∈ sels -> found sc x = None) /\
   find_input sc sels w = (Normal None, extend (queries sels) w)).
Proof.
  revert w. induction sels as [|sel rest IH]; intros w Hp.
  - right. split; [intros x H; by apply elem_of_nil in H|].
    cbn. by rewrite extend_nil.
  - cbn [find_input]. rewrite bind_run, try_catch_run, page_call_run by done.
    assert (Hp1 : is_Some (page (logged (Did (Query sel)) w))) by done.
    assert (Step1 : forall evs,
               extend evs (logged (Did (Query sel)) w)
               = extend (Did (Query sel) :: evs) w).
    { intros evs. rewrite logged_extend, extend_extend. done. }
    unfold found in *.
    destruct (s_query sc sel) as [[el|]|e] eqn:Q; cbn [ret].
    + left. exists [], sel, rest, el.
      split; [done|]. split; [intros x H; by apply elem_of_nil in H|].
      unfold found. rewrite Q. by split.
    + destruct (IH _ Hp1) as [(pre & s & post & el & -> & Hpre & Hs & E)|[Hall E]].
      * left. exists (sel :: pre), s, post, el.
        split; [done|]. split.
        { intros x [-> | H]%elem_of_cons; [by rewrite Q | by apply Hpre]. }
        split; [done|]. by rewrite E, Step1.
      * right. split.
        { intros x [-> | H]%elem_of_cons; [by rewrite Q | by apply Hall]. }
        by rewrite E, Step1.
    + destruct (IH _ Hp1) as [(pre & s & post & el & -> & Hpre & Hs & E)|[Hall E]].
      * left. exists (sel :: pre), s, post, el.
        split; [done|]. split.
        { intros x [-> | H]%elem_of_cons; [by rewrite Q | by apply Hpre]. }
        split; [done|]. by rewrite E, Step1.
      * right. split.
        { intros x [-> | H]%elem_of_cons; [by rewrite Q | by apply Hall]. }
        by rewrite E, Step1.
Qed.

Lemma find_input_first_found_witness :
  is_Some (page ready) /\
  ((exists pre sel post el,
       inputSelectors = pre ++ sel :: post /\
       (forall x, x ∈ pre -> found portal_without_input x = None) /\
       found portal_without_input sel = Some el /\
       find_input portal_without_input inputSelectors ready =
       (Normal (Some el), extend (queries (pre ++ [sel])) ready))
   \/
   ((forall x, x ∈ inputSelectors -> found portal_without_input x = None) /\
    find_input portal_without_input inputSelectors ready =
    (Normal None, extend (queries inputSelectors) ready))).
Proof.
  assert (H : is_Some (page ready)) by (vm_compute; eauto).
  split; [exact H|].
  exact (find_input_first_found portal_without_input inputSelectors ready H).
Defined.

(** *** Initialization *)

Definition no_browser : Error :=
  {| message :=
       "No se pudo iniciar ningún navegador. Instala Chrome o Edge para continuar." |}.

(** [initialize] returns [true] or throws, and whatever went wrong (no
    browser found, the launch, the new page, the missing credentials, a
    rejected login) it throws the same error, which says that no browser
    could be started. *)
Theorem initialize_true_or_no_browser cfg sc w res w' :
  initialize cfg sc w = (res, w') ->
  res = Normal true \/ res = Throw no_browser.
Proof.
  unfold initialize. rewrite try_catch_run.
  match goal with |- context [match ?m w with _ => _ end] =>
    assert (R : returns (fun v => v = true) m);
    [| destruct (m w) as [[v|e] w1] eqn:E]
  end.
  - do 7 (apply returns_bind; intros ?). apply login_returns_true.
  - intros [= <- <-]. left. f_equal. by eapply R.
  - intros [= <- <-]. by right.
Qed.

Lemma initialize_true_or_no_browser_witness :
  exists w',
    initialize default_config
      {| i_browserPath := i_browserPath machine; i_launch := i_launch machine;
         i_newPage := i_newPage machine; i_login := login_as None |}
      constructor
    = (Throw no_browser, w') /\
    (Throw no_browser = Normal true \/ @Throw bool no_browser = Throw no_browser).
Proof.
  eexists. split; [vm_compute; reflexivity|].
  eapply (initialize_true_or_no_browser default_config
            {| i_browserPath := i_browserPath machine; i_launch := i_launch machine;
               i_newPage := i_newPage machine; i_login := login_as None |}
            constructor).
  vm_compute. reflexivity.
Defined.

(** Once the browser is launched and its page is open, [initialize]
    leaves both set, also when it then throws because the login failed:
    it does not close the browser it started. *)
Theorem initialize_keeps_browser_open cfg sc w path b p :
  i_browserPath sc = Normal path ->
  i_launch sc = Normal b ->
  i_newPage sc = Normal p ->
  browser (initialize cfg sc w).2 = Some b /\
  page (initialize cfg sc w).2 = Some p.
Proof.
  intros H1 H2 H3. unfold initialize.
  rewrite try_catch_run, bind_run, H1; cbn [settle].
  rewrite bind_run, H2; cbn [call]. rewrite bind_run.
  rewrite bind_run; cbn [call]; rewrite H3. rewrite bind_run.
  match goal with |- context [match ?m ?w0 with _ => _ end] =>
    assert (Em : emits quiet m);
    [| destruct (Em w0) as (evs & E & _); destruct (m w0) as [[v|e] w3]]
  end.
  - apply emits_bind; [emits_steps | intros _].
    apply emits_bind; [emits_steps | intros _]. apply emits_login.
  - cbn [snd] in E |- *. by subst w3.
  - unfold throw. cbn [snd] in E |- *. by subst w3.
Qed.

Lemma initialize_keeps_browser_open_witness :
  browser (initialize default_config
             {| i_browserPath := i_browserPath machine; i_launch := i_launch machine;
                i_newPage := i_newPage machine; i_login := login_as None |}
             constructor).2 = Some (BrowserProcess 1) /\
  page (initialize default_config
          {| i_browserPath := i_browserPath machine; i_launch := i_launch machine;
             i_newPage := i_newPage machine; i_login := login_as None |}
          constructor).2 = Some (PageTab 1).
Proof.
  eapply (initialize_keeps_browser_open default_config
            {| i_browserPath := i_browserPath machine; i_launch := i_launch machine;
               i_newPage := i_newPage machine; i_login := login_as None |}
            constructor); reflexivity.
Defined.


(** *** What the normalization of the cost removes *)

Fixpoint occurrences (c : ascii) (s : string) : nat :=
  match s with
  | EmptyString => 0
  | String a t => (if Ascii.eqb a c then 1 else 0) + occurrences c t
  end.

Lemma replace_char_cons c a t :
  replace (String c "") "" (String a t) =
  if Ascii.eqb c a then t else String a (replace (String c "") "" t).
Proof.
  cbn [replace]. cbn [String.prefix].
  destruct (ascii_dec c a) as [->|N].
  - rewrite Ascii.eqb_refl. by destruct t.
  - apply Ascii.eqb_neq in N. by rewrite N.
Qed.

Lemma occurrences_replace_same c s :
  occurrences c (replace (String c "") "" s) = occurrences c s - 1.
Proof.
  induction s as [|a t IH]; [done|].
  rewrite replace_char_cons. rewrite (Ascii.eqb_sym c a).
  cbn [occurrences]. destruct (Ascii.eqb a c) eqn:E.
  - lia.
  - cbn [occurrences]. rewrite E, IH. lia.
Qed.

Lemma occurrences_replace_other c d s :
  c <> d ->
  occurrences d (replace (String c "") "" s) = occurrences d s.
Proof.
  intros N. induction s as [|a t IH]; [done|].
  rewrite replace_char_cons.
  destruct (Ascii.eqb c a) eqn:E.
  - apply Ascii.eqb_eq in E. subst a. cbn [occurrences].
    apply Ascii.eqb_neq in N. by rewrite N.
  - cbn [occurrences]. by rewrite IH.
Qed.

(** [removed_first c s r]: [r] is [s] without its first [c]; it is [s]
    itself when [s] has no [c]. *)
Definition removed_first (c : ascii) (s r : string) : Prop :=
  (occurrences c s = 0 /\ r = s) \/
  (exists a b, s = (a ++ String c b)%string /\ occurrences c a = 0 /\
               r = (a ++ b)%string).

Lemma replace_removed_first c s : removed_first c s (replace (String c "") "" s).
Proof.
  induction s as [|a t IH]; [by left|].
  rewrite replace_char_cons. destruct (Ascii.eqb c a) eqn:E.
  - apply Ascii.eqb_eq in E. subst a. right. by exists ""%string, t.
  - rewrite Ascii.eqb_sym in E.
    destruct IH as [[H ->] | (x & y & -> & H & ->)].
    + left. cbn [occurrences]. by rewrite E, H.
    + right. exists (String a x), y. cbn [occurrences String.append].
      by rewrite E, H.
Qed.

(** What the normalization of the cost cell removes: the first dollar
    sign of the trimmed text, when it has one, and then the first comma
    of what is left, when it has one; nothing else. A text without the
    one or the other passes unchanged in that respect, and of a text
    with several thousands separators only the first is taken out: the
    number of commas handed to [parseFloat] is one less than in the cell
    and never less than that. *)
Theorem costoSistema_removes_first_of_each cells t :
  cells !! 2 = Some t ->
  (exists u,
     removed_first "$" (trim t) u /\
     removed_first "," u (costoSistema cells)) /\
  occurrences "," (trim t) =
    occurrences "," (costoSistema cells)
    + (if occurrences "," (trim t) is 0 then 0 else 1) /\
  occurrences "$" (trim t) =
    occurrences "$" (costoSistema cells)
    + (if occurrences "$" (trim t) is 0 then 0 else 1).
Proof.
  intros H. unfold costoSistema. rewrite H. split.
  { eexists. split; apply replace_removed_first. }
  split.
  - rewrite occurrences_replace_same.
    rewrite (occurrences_replace_other "$" ",") by done.
    destruct (occurrences "," (trim t)); lia.
  - rewrite (occurrences_replace_other "," "$") by done.
    rewrite occurrences_replace_same.
    destruct (occurrences "$" (trim t)); lia.
Qed.

Lemma costoSistema_removes_first_of_each_witness :
  row_with " $12,345,678.90 " !! 2 = Some " $12,345,678.90 " /\
  costoSistema (row_with " $12,345,678.90 ") = "12345,678.90"%string /\
  (exists u,
     removed_first "$" (trim " $12,345,678.90 ") u /\
     removed_first "," u (costoSistema (row_with " $12,345,678.90 "))) /\
  occurrences "," (trim " $12,345,678.90 ") =
    occurrences "," (costoSistema (row_with " $12,345,678.90 ")) + 1 /\
  occurrences "$" (trim " $12,345,678.90 ") =
    occurrences "$" (costoSistema (row_with " $12,345,678.90 ")) + 1.
Proof.
  split; [reflexivity|]. split; [reflexivity|].
  exact (costoSistema_removes_first_of_each (row_with " $12,345,678.90 ")
           " $12,345,678.90 " eq_refl).
Defined.

(** *** The reviews of one call *)

(** The count of the reviews: on a portal whose search input is never
    found, one call with the default budget of three retries enters
    [searchExpediente] four times and leaves [totalRevisados] four
    higher. *)
Lemma searchExpediente_reviews_every_attempt_witness :
  exists res w' evs s',
    searchExpediente default_config "123456" (VNumber (literal 1000 1))
      (fun _ => portal_without_input) 0 ready = (res, w') /\
    searches (entered evs) = 4 /\
    log w' = log ready ++ evs /\
    current_stats w' = Some s' /\
    totalRevisados s' = totalRevisados zero_stats + searches (entered evs).
Proof.
  eexists. eexists.
  destruct (searchExpediente_reviews_every_attempt default_config "123456"
              (VNumber (literal 1000 1)) (fun _ => portal_without_input)
              ready zero_stats
              (searchExpediente default_config "123456" (VNumber (literal 1000 1))
                 (fun _ => portal_without_input) 0 ready).1
              (searchExpediente default_config "123456" (VNumber (literal 1000 1))
                 (fun _ => portal_without_input) 0 ready).2
              eq_refl (surjective_pairing _))
    as (evs & s' & L & C & R).
  exists evs, s'. split; [apply surjective_pairing|].
  split; [|by repeat split].
  assert (T : totalRevisados s' = 4).
  { revert C. vm_compute. by intros [= <-]. }
  rewrite T in R. cbn in R. lia.
Defined.

End Further.

(** ** ErrorHandler (src/utils/error-handler.js) *)

Module ErrorHandler.

Local Open Scope string_scope.
Local Open Scope list_scope.

(** [error.response] of an axios error: its status, and
    [data?.message] when it is a non-empty string. *)
Record AxiosResponse : Type := {
  status : Z;
  data_message : option string
}.

(** The properties of an error that the handler reads; [None] is an
    absent property. *)
Record JsError : Type := {
  code : option string;
  name : option string;
  message : option string;
  stack : option string;
  isAxiosError : bool;
  response : option AxiosResponse;
  request : bool
}.

(** [a || b] on strings that may be absent: the empty string is falsy. *)
Definition or_else (a b : option string) : option string :=
  match a with
  | Some s => if String.eqb s "" then b else a
  | None => b
  end.

(** [errorMap], the own properties of the object literal. *)
Definition errorMap : list (string * string) :=
  [("ECONNREFUSED", "No se pudo conectar al servidor. Verifique su conexión a internet.");
   ("ETIMEDOUT", "La conexión ha expirado. Verifique su conexión a internet.");
   ("ENOTFOUND", "No se pudo encontrar el servidor. Verifique su conexión a internet.");
   ("ENOENT", "No se pudo encontrar el archivo o directorio especificado.");
   ("EACCES", "Permiso denegado para acceder al recurso solicitado.");
   ("EPERM", "No tiene permisos suficientes para realizar esta acción.");
   ("SyntaxError", "Error en el formato de datos recibidos del servidor.")].

(** The names that [errorMap] inherits from [Object.prototype]; each is
    a function or an object, so it is truthy. *)
Definition object_prototype : list string :=
  ["constructor"; "__defineGetter__"; "__defineSetter__"; "hasOwnProperty";
   "__lookupGetter__"; "__lookupSetter__"; "isPrototypeOf";
   "propertyIsEnumerable"; "toString"; "valueOf"; "__proto__"; "toLocaleString"].

Fixpoint own (key : string) (m : list (string * string)) : option string :=
  match m with
  | [] => None
  | (k, v) :: rest => if String.eqb k key then Some v else own key rest
  end.

(** What the function hands back: a text, or the member of
    [Object.prototype] found under a name. *)
Inductive Returned : Type :=
| Text (s : string)
| Member (key : string).

(** [errorMap[key]] when it is truthy. *)
Definition lookup_errorMap (key : string) : option Returned :=
  match own key errorMap with
  | Some v => Some (Text v)
  | None =>
      if existsb (String.eqb key) object_prototype then Some (Member key) else None
  end.

(** [`${x}`] for a string that may be undefined. *)
Definition interpolate (x : option string) : string :=
  match x with
  | Some s => s
  | None => "undefined"
  end.

Definition decimal (z : Z) : string := NilZero.string_of_int (Z.to_int z).

Definition unknown : string := "Se produjo un error desconocido".

(** [static getReadableErrorMessage(error)] *)
Definition getReadableErrorMessage (error : option JsError) : Returned :=
  match error with
  | None => Text unknown
  | Some error =>
      let errorCode := or_else (code error) (name error) in
      let known :=
        match or_else errorCode None with
        | Some key => lookup_errorMap key
        | None => None
        end in
      match known with
      | Some r => r
      | None =>
          let generic := Text (match or_else (message error) None with
                               | Some m => m
                               | None => unknown
                               end) in
          if isAxiosError error then
            match response error with
            | Some resp =>
                if Z.eqb (status resp) 400
                then Text "La solicitud enviada es incorrecta. Verifique los datos."
                else if Z.eqb (status resp) 401
                then Text "No está autorizado para realizar esta acción. Verifique sus credenciales."
                else if Z.eqb (status resp) 403
                then Text "No tiene permisos para acceder a este recurso."
                else if Z.eqb (status resp) 404
                then Text "El recurso solicitado no fue encontrado."
                else if Z.eqb (status resp) 500
                then Text "Error en el servidor. Intente nuevamente más tarde."
                else Text ("Error en la solicitud (" ++ decimal (status resp) ++ "): "
                           ++ interpolate (match or_else (data_message resp) None with
                                           | Some m => Some m
                                           | None => message error
                                           end))%string
            | None =>
                if request error
                then Text "No se recibió respuesta del servidor. Verifique su conexión."
                else generic
            end
          else generic
      end
  end.

(** The object [handleError] returns. *)
Record ErrorResponse : Type := {
  success : bool;
  r_message : Returned;
  r_error : option string;
  context : string
}.

(** [dialog.showMessageBox] with its [message] and [detail]. *)
Record Dialog : Type := { d_message : string; d_detail : Returned }.

(** [static handleError(error, context, showDialog)]: the response, and
    the dialogs shown; [None] when reading [error.message] of a null
    error throws a TypeError. *)
Definition handleError (error : option JsError) (context : string)
  (showDialog : bool) : option (ErrorResponse * list Dialog) :=
  match error with
  | None => None
  | Some e =>
      let errorResponse :=
        {| success := false;
           r_message := getReadableErrorMessage error;
           r_error := message e;
           context := context |} in
      Some (errorResponse,
            if showDialog
            then [{| d_message := "Error en " ++ context;
                     d_detail := r_message errorResponse |}]
            else [])
  end.

(** How [fn()] settled: with a value, or with a thrown value (which may
    be [null]). *)
Inductive Settled (A : Type) : Type :=
| Resolved (a : A)
| Rejected (thrown : option JsError).
Arguments Resolved {A} a.
Arguments Rejected {A} thrown.

(** [static async wrapAsync(fn, context, showDialog)]: the value of
    [fn()] or the response of [handleError]; [None] when it throws. *)
Definition wrapAsync {A} (fn : Settled A) (context : string) (showDialog : bool)
  : option ((A + ErrorResponse) * list Dialog) :=
  match fn with
  | Resolved a => Some (inl a, [])
  | Rejected error =>
      match handleError error context showDialog with
      | Some (r, ds) => Some (inr r, ds)
      | None => None
      end
  end.

(** *** Properties *)

Lemma or_else_nonempty a b s :
  or_else a b = Some s -> b = None -> s <> "".
Proof.
  unfold or_else. destruct a as [x|]; [|congruence].
  destruct (String.eqb x "") eqn:E; [congruence|].
  intros [= <-] _. by apply String.eqb_neq.
Qed.

Lemma own_errorMap_nonempty key v : own key errorMap = Some v -> v <> "".
Proof.
  unfold errorMap. cbn [own].
  repeat (destruct (String.eqb _ key); [intros [= <-]; discriminate|]).
  discriminate.
Qed.

Lemma lookup_errorMap_cases key r :
  lookup_errorMap key = Some r ->
  (exists v, r = Text v /\ own key errorMap = Some v /\ v <> "") \/
  (r = Member key /\ In key object_prototype).
Proof.
  unfold lookup_errorMap. destruct (own key errorMap) as [v|] eqn:O.
  - intros [= <-]. left. exists v. split; [done|]. split; [done|].
    by eapply own_errorMap_nonempty.
  - destruct (existsb _ _) eqn:X; [|discriminate].
    intros [= <-]. right. split; [done|].
    apply existsb_exists in X as (k & Hk & E).
    apply String.eqb_eq in E. by subst k.
Qed.

Lemma object_prototype_not_own key :
  In key object_prototype -> own key errorMap = None /\ key <> "".
Proof.
  unfold object_prototype. cbn [In].
  intros H. repeat (destruct H as [<- | H]; [by split|]). done.
Qed.

(** [getReadableErrorMessage] never returns an empty message, and it
    returns a text except in one case: when the code of the error (or,
    without a code, its name) is the name of a member that [errorMap]
    inherits from [Object.prototype], such as "constructor" or
    "toString", [errorMap[errorCode]] is that member and the function
    returns it instead of a text, whatever else the error carries. A
    member is returned in that case and in no other. *)
Theorem getReadableErrorMessage_never_empty error :
  match getReadableErrorMessage error with
  | Text s => s <> ""
  | Member key =>
      In key object_prototype /\
      exists e, error = Some e /\ or_else (code e) (name e) = Some key
  end /\
  (forall e key,
     error = Some e ->
     or_else (code e) (name e) = Some key ->
     In key object_prototype ->
     getReadableErrorMessage error = Member key).
Proof.
  split.
  { destruct error as [e|]; [|discriminate].
    unfold getReadableErrorMessage.
    destruct (or_else (or_else (code e) (name e)) None) as [key|] eqn:K.
    - assert (Hk : or_else (code e) (name e) = Some key).
      { unfold or_else in K at 1. destruct (or_else (code e) (name e)) as [x|];
          [|discriminate]. by destruct (String.eqb x ""); [discriminate|]. }
      destruct (lookup_errorMap key) as [r|] eqn:L.
      + destruct (lookup_errorMap_cases _ _ L) as [(v & -> & _ & Hv) | [-> Hin]];
          [done|]. split; [done|]. by exists e.
      + clear K Hk L.
        destruct (isAxiosError e);
          [destruct (response e) as [resp|]; [|destruct (request e)]|];
          repeat (match goal with |- context [if ?b then _ else _] => destruct b end);
          try discriminate;
          destruct (or_else (message e) None) eqn:M; try discriminate;
          by eapply or_else_nonempty.
    - destruct (isAxiosError e);
        [destruct (response e) as [resp|]; [|destruct (request e)]|];
        repeat (match goal with |- context [if ?b then _ else _] => destruct b end);
        try discriminate;
        destruct (or_else (message e) None) eqn:M; try discriminate;
        by eapply or_else_nonempty. }
  intros e key -> Hk Hin.
  destruct (object_prototype_not_own key Hin) as [Hown Hne].
  apply String.eqb_neq in Hne.
  unfold getReadableErrorMessage. rewrite Hk. cbn [or_else]. rewrite Hne.
  unfold lookup_errorMap. rewrite Hown.
  assert (X : existsb (String.eqb key) object_prototype = true).
  { apply existsb_exists. exists key. split; [done|]. apply String.eqb_refl. }
  by rewrite X.
Qed.

(** An error from a failed request whose code is "constructor": the
    function returns the constructor of [errorMap], not a text; and an
    error without a code whose name is "toString" gets that member. *)
Lemma getReadableErrorMessage_never_empty_witness :
  getReadableErrorMessage
    (Some {| code := Some "constructor"; name := Some "Error";
             message := Some "Request failed with status code 404";
             stack := None; isAxiosError := true;
             response := Some {| status := 404; data_message := None |};
             request := true |})
  = Member "constructor" /\
  getReadableErrorMessage
    (Some {| code := None; name := Some "toString";
             message := Some "boom";
             stack := None; isAxiosError := false;
             response := None; request := false |})
  = Member "toString".
Proof.
  split.
  - eapply (proj2 (getReadableErrorMessage_never_empty _));
      [reflexivity | reflexivity | vm_compute; tauto].
  - eapply (proj2 (getReadableErrorMessage_never_empty _));
      [reflexivity | reflexivity | vm_compute; tauto].
Defined.

(** A code that [errorMap] knows decides the message, whatever else the
    error carries (an axios response included); and the name of the
    error is read only when the error has no code: an error with an
    unknown code gets the message it would get without its name. *)
Theorem getReadableErrorMessage_code_first e c :
  code e = Some c -> c <> "" ->
  (forall v, own c errorMap = Some v ->
             getReadableErrorMessage (Some e) = Text v) /\
  getReadableErrorMessage (Some e) =
  getReadableErrorMessage
    (Some {| code := code e; name := None; message := message e;
             stack := stack e; isAxiosError := isAxiosError e;
             response := response e; request := request e |}).
Proof.
  intros Hc Hne. apply String.eqb_neq in Hne.
  unfold getReadableErrorMessage; cbn [code name message isAxiosError response request].
  rewrite Hc. cbn [or_else]. rewrite Hne. cbn [or_else]. rewrite Hne.
  split; [|done].
  intros v Hv. unfold lookup_errorMap. by rewrite Hv.
Qed.

Lemma getReadableErrorMessage_code_first_witness :
  getReadableErrorMessage
    (Some {| code := Some "ECONNREFUSED"; name := Some "SyntaxError";
             message := Some "connect ECONNREFUSED 127.0.0.1:3000";
             stack := None; isAxiosError := true;
             response := Some {| status := 404; data_message := None |};
             request := true |})
  = Text "No se pudo conectar al servidor. Verifique su conexión a internet.".
Proof.
  apply (proj1 (getReadableErrorMessage_code_first
                  {| code := Some "ECONNREFUSED"; name := Some "SyntaxError";
                     message := Some "connect ECONNREFUSED 127.0.0.1:3000";
                     stack := None; isAxiosError := true;
                     response := Some {| status := 404; data_message := None |};
                     request := true |}
                  "ECONNREFUSED" eq_refl ltac:(discriminate))).
  reflexivity.
Defined.

End ErrorHandler.

(** ** ConfigService (src/services/config-service.js) *)

Module ConfigService.

Import Service.
Local Open Scope string_scope.
Local Open Scope list_scope.

(** The values the store holds. *)
#[warnings="-register-all"]
Inductive Json : Type :=
| JNull
| JBool (b : bool)
| JNumber (z : Z)
| JString (s : string)
| JObject (fields : list (string * Json)).

(** Truthiness of a value that may be undefined. *)
Definition truthy (v : option Json) : bool :=
  match v with
  | None | Some JNull => false
  | Some (JBool b) => b
  | Some (JNumber z) => negb (Z.eqb z 0)
  | Some (JString s) => negb (String.eqb s "")
  | Some (JObject _) => true
  end.

(** The service and what it writes outside the store: the items of the
    electron-store, the environment variables of the process, and the
    JSON files written under the user-data directory (by file name). *)
Record State : Type := {
  items : string -> option Json;
  env : string -> option string;
  written : list (string * Json)
}.

(** What the machine does during a call: which operations of the store
    throw (an operation that throws changes nothing), whether
    [fileUtils.writeJsonFile] manages to write, and the time. *)
Record Disk : Type := {
  get_throws : string -> option Error;
  set_throws : string -> option Error;
  delete_throws : string -> option Error;
  write_ok : bool;
  now : string
}.

Definition put {A} (k : string) (v : A) (m : string -> option A)
  : string -> option A :=
  fun k' => if String.eqb k k' then Some v else m k'.

Definition remove {A} (k : string) (m : string -> option A)
  : string -> option A :=
  fun k' => if String.eqb k k' then None else m k'.

(** [this.store.get(key)] *)
Definition store_get (d : Disk) (key : string) (st : State)
  : Completion (option Json) :=
  match get_throws d key with
  | Some e => Throw e
  | None => Normal (items st key)
  end.

(** [this.store.set(key, value)] *)
Definition store_set (d : Disk) (key : string) (value : Json) (st : State)
  : Completion unit * State :=
  match set_throws d key with
  | Some e => (Throw e, st)
  | None =>
      (Normal tt,
       {| items := put key value (items st); env := env st; written := written st |})
  end.

(** [this.store.delete(key)] *)
Definition store_delete (d : Disk) (key : string) (st : State)
  : Completion unit * State :=
  match delete_throws d key with
  | Some e => (Throw e, st)
  | None =>
      (Normal tt,
       {| items := remove key (items st); env := env st; written := written st |})
  end.

(** [fileUtils.writeJsonFile(fileUtils.getUserDataPath(file), data)];
    it catches its own errors. *)
Definition writeJsonFile (d : Disk) (file : string) (data : Json) (st : State)
  : State :=
  if write_ok d
  then {| items := items st; env := env st;
          written := written st ++ [(file, data)] |}
  else st.

Definition setenv (k v : string) (st : State) : State :=
  {| items := items st; env := put k v (env st); written := written st |}.

(** [getCredentials()]: [null] when the store throws. *)
Definition getCredentials (d : Disk) (st : State) : option Json :=
  match store_get d "credentials" st with
  | Normal v => v
  | Throw _ => Some JNull
  end.

Definition credentials_object (username password : string) : Json :=
  JObject [("username", JString username); ("password", JString password)].

Definition required : Error :=
  {| message := "Usuario y contraseña son requeridos" |}.

(** The [catch] of [saveCredentials]: the backup file, then the error
    again. *)
Definition backup_and_rethrow (d : Disk) (username password : string)
  (error : Error) (st : State) : Completion bool * State :=
  (Throw error,
   writeJsonFile d "credentials_backup.json"
     (JObject [("username", JString username); ("password", JString password);
               ("timestamp", JString (now d))])
     st).

(** [saveCredentials(username, password)] *)
Definition saveCredentials (d : Disk) (username password : string) (st : State)
  : Completion bool * State :=
  if String.eqb username "" || String.eqb password ""
  then backup_and_rethrow d username password required st
  else
    match store_set d "credentials" (credentials_object username password) st with
    | (Throw e, st1) => backup_and_rethrow d username password e st1
    | (Normal _, st1) =>
        match store_set d "isConfigured" (JBool true) st1 with
        | (Throw e, st2) => backup_and_rethrow d username password e st2
        | (Normal _, st2) =>
            (Normal true,
             setenv "IKE_PASSWORD" password (setenv "IKE_USERNAME" username st2))
        end
    end.

(** [isConfigured()]; the read of the flag is not guarded. *)
Definition isConfigured (d : Disk) (st : State) : Completion bool :=
  match store_get d "isConfigured" st with
  | Throw e => Throw e
  | Normal flag =>
      Normal (match flag with
              | Some (JBool true) => truthy (getCredentials d st)
              | _ => false
              end)
  end.

(** [get(key, defaultValue)]: the store answers [defaultValue] for an
    absent item. *)
Definition get (d : Disk) (key : string) (defaultValue : option Json) (st : State)
  : option Json :=
  match store_get d key st with
  | Normal (Some v) => Some v
  | Normal None => defaultValue
  | Throw _ => defaultValue
  end.

(** [set(key, value)] *)
Definition set (d : Disk) (key : string) (value : Json) (st : State)
  : bool * State :=
  match store_set d key value st with
  | (Normal _, st') => (true, st')
  | (Throw _, st') => (false, st')
  end.

(** [delete(key)] *)
Definition delete (d : Disk) (key : string) (st : State) : bool * State :=
  match store_delete d key st with
  | (Normal _, st') => (true, st')
  | (Throw _, st') => (false, st')
  end.

(** *** Properties *)

Definition backup_file (d : Disk) (username password : string) : string * Json :=
  ("credentials_backup.json",
   JObject [("username", JString username); ("password", JString password);
            ("timestamp", JString (now d))]).

(** With an empty username or an empty password [saveCredentials] throws
    'Usuario y contraseña son requeridos' and stores nothing; but its
    handler still writes the values it was given to
    credentials_backup.json. *)
Theorem saveCredentials_rejects_empty d username password st :
  username = "" \/ password = "" ->
  exists st',
    saveCredentials d username password st = (Throw required, st') /\
    items st' = items st /\
    env st' = env st /\
    written st' =
      written st ++ (if write_ok d then [backup_file d username password] else []).
Proof.
  intros H. unfold saveCredentials.
  assert (String.eqb username "" || String.eqb password "" = true) as ->.
  { destruct H as [-> | ->]; cbn; [done | by rewrite orb_true_r]. }
  unfold backup_and_rethrow, writeJsonFile. eexists. split; [reflexivity|].
  destruct (write_ok d); cbn; [done|]. by rewrite app_nil_r.
Qed.

Lemma saveCredentials_rejects_empty_witness :
  exists st',
    saveCredentials
      {| get_throws := fun _ => None; set_throws := fun _ => None;
         delete_throws := fun _ => None; write_ok := true;
         now := "2025-01-01T00:00:00.000Z" |}
      "testuser" ""
      {| items := fun _ => None; env := fun _ => None; written := [] |}
    = (Throw required, st') /\
    written st' =
      [("credentials_backup.json",
        JObject [("username", JString "testuser"); ("password", JString "");
                 ("timestamp", JString "2025-01-01T00:00:00.000Z")])].
Proof.
  destruct (saveCredentials_rejects_empty
              {| get_throws := fun _ => None; set_throws := fun _ => None;
                 delete_throws := fun _ => None; write_ok := true;
                 now := "2025-01-01T00:00:00.000Z" |}
              "testuser" ""
              {| items := fun _ => None; env := fun _ => None; written := [] |}
              (or_intror eq_refl))
    as (st' & E & _ & _ & W).
  exists st'. split; [exact E | exact W].
Defined.

(** When the store takes both items, [saveCredentials] returns [true],
    and afterwards [getCredentials] gives back the username and the
    password that were saved and [isConfigured] is true; no other item
    of the store has changed and no backup file was written. *)
Theorem saveCredentials_then_getCredentials d username password st :
  username <> "" -> password <> "" ->
  set_throws d "credentials" = None ->
  set_throws d "isConfigured" = None ->
  exists st',
    saveCredentials d username password st = (Normal true, st') /\
    (forall d', get_throws d' "credentials" = None ->
       getCredentials d' st' = Some (credentials_object username password)) /\
    (forall d', get_throws d' "credentials" = None ->
       get_throws d' "isConfigured" = None ->
       isConfigured d' st' = Normal true) /\
    (forall k, k <> "credentials" -> k <> "isConfigured" ->
       items st' k = items st k) /\
    written st' = written st.
Proof.
  intros Hu Hp H1 H2. apply String.eqb_neq in Hu, Hp.
  unfold saveCredentials, store_set. rewrite Hu, Hp, H1, H2. cbn [orb].
  eexists. split; [reflexivity|]. cbn [items written setenv].
  split; [|split; [|split; [|done]]].
  - intros d' G. unfold getCredentials, store_get. rewrite G. reflexivity.
  - intros d' G1 G2. unfold isConfigured, getCredentials, store_get.
    rewrite G2, G1. reflexivity.
  - intros k N1 N2. unfold put.
    apply String.eqb_neq in N1, N2.
    rewrite (String.eqb_sym "isConfigured" k), N2.
    by rewrite (String.eqb_sym "credentials" k), N1.
Qed.

Lemma saveCredentials_then_getCredentials_witness :
  exists st',
    saveCredentials
      {| get_throws := fun _ => None; set_throws := fun _ => None;
         delete_throws := fun _ => None; write_ok := true;
         now := "2025-01-01T00:00:00.000Z" |}
      "testuser" "testpassword"
      {| items := fun _ => None; env := fun _ => None; written := [] |}
    = (Normal true, st') /\
    getCredentials
      {| get_throws := fun _ => None; set_throws := fun _ => None;
         delete_throws := fun _ => None; write_ok := true;
         now := "2025-01-01T00:00:00.000Z" |} st'
    = Some (credentials_object "testuser" "testpassword").
Proof.
  destruct (saveCredentials_then_getCredentials
              {| get_throws := fun _ => None; set_throws := fun _ => None;
                 delete_throws := fun _ => None; write_ok := true;
                 now := "2025-01-01T00:00:00.000Z" |}
              "testuser" "testpassword"
              {| items := fun _ => None; env := fun _ => None; written := [] |})
    as (st' & E & G & _); try discriminate; try reflexivity.
  exists st'. split; [exact E|]. by apply G.
Defined.

(** [saveCredentials] returns [true] or throws, never [false]; and
    whatever the store does, the credentials item is afterwards what it
    was or the pair just given, with a username and a password that are
    not empty: the service never stores incomplete credentials. *)
Theorem saveCredentials_stores_only_complete d username password st :
  exists res st',
    saveCredentials d username password st = (res, st') /\
    (res = Normal true \/ exists e, res = Throw e) /\
    (items st' "credentials" = items st "credentials" \/
     (items st' "credentials" = Some (credentials_object username password) /\
      username <> "" /\ password <> "")).
Proof.
  unfold saveCredentials.
  destruct (String.eqb username "") eqn:Hu; cbn [orb].
  { eexists. eexists. split; [reflexivity|]. split; [eauto|]. left.
    unfold writeJsonFile. by destruct (write_ok d). }
  destruct (String.eqb password "") eqn:Hp.
  { eexists. eexists. split; [reflexivity|]. split; [eauto|]. left.
    unfold writeJsonFile. by destruct (write_ok d). }
  apply String.eqb_neq in Hu, Hp.
  unfold store_set. destruct (set_throws d "credentials") as [e|].
  { eexists. eexists. split; [reflexivity|]. split; [eauto|]. left.
    unfold backup_and_rethrow, writeJsonFile. by destruct (write_ok d). }
  destruct (set_throws d "isConfigured") as [e|].
  - eexists. eexists. split; [reflexivity|]. split; [eauto|]. right.
    unfold backup_and_rethrow, writeJsonFile. by destruct (write_ok d).
  - eexists. eexists. split; [reflexivity|]. split; [eauto|]. by right.
Qed.

End ConfigService.

(** ** Finding the browser (BrowserService.getBrowserPath) *)

Module BrowserPath.

Import JsString Service.
Local Open Scope string_scope.
Local Open Scope list_scope.

(** The machine the service runs on. [join] and [normalize] are
    [path.join] and [path.normalize] of its platform; the two registry
    fields are what [execSync] gives for the two [reg query] commands
    (the second names the ProgId it asks about). *)
Record Machine : Type := {
  platform : string;
  homedir : string;
  getenv : string -> option string;
  existsSync : string -> bool;
  join : string -> string -> string;
  normalize : string -> string;
  reg_user_choice : Completion string;
  reg_open_command : string -> Completion string
}.

(** The text after the first occurrence of [sep], if there is one. *)
Fixpoint after (sep s : string) : option string :=
  if String.prefix sep s then Some (drop (String.length sep) s)
  else match s with
       | String _ t => after sep t
       | EmptyString => None
       end.

(** The text before the first occurrence of [sep]: [s.split(sep)[0]]. *)
Fixpoint before (sep s : string) : string :=
  if String.prefix sep s then EmptyString
  else match s with
       | String c t => String c (before sep t)
       | EmptyString => EmptyString
       end.

(** [s.split(sep)[1]] for a separator that is not empty; [None] is
    undefined. *)
Definition second_piece (sep s : string) : option string :=
  match after sep s with
  | Some rest => Some (before sep rest)
  | None => None
  end.

Definition dquote : ascii := ascii_of_nat 34.

(** [s] without any occurrence of the character [c], as [s.replace]
    with the global pattern of that character and '' gives. *)
Fixpoint remove_all (c : ascii) (s : string) : string :=
  match s with
  | String a t => if Ascii.eqb a c then remove_all c t else String a (remove_all c t)
  | EmptyString => EmptyString
  end.

(** [`${x}`] and [x + '...'] for a variable of the environment that may
    be undefined. *)
Definition interpolate (x : option string) : string :=
  match x with
  | Some s => s
  | None => "undefined"
  end.

(** [async getDefaultBrowserWindows()]; [None] is [null]. Every
    exception (a failed [reg query], reading [.trim] of an undefined
    piece) is caught. *)
Definition getDefaultBrowserWindows (m : Machine) : option string :=
  match reg_user_choice m with
  | Throw _ => None
  | Normal regQuery =>
      match second_piece "REG_SZ" regQuery with
      | None => None
      | Some piece =>
          let browserId := trim piece in
          match reg_open_command m browserId with
          | Throw _ => None
          | Normal association =>
              match second_piece "REG_SZ" association with
              | None => None
              | Some piece' =>
                  let fullPath := remove_all dquote (trim piece') in
                  Some (normalize m (before " " fullPath))
              end
          end
      end
  end.

(** The first path of the list that exists. *)
Fixpoint first_existing (m : Machine) (paths : list string) : option string :=
  match paths with
  | [] => None
  | p :: rest => if existsSync m p then Some p else first_existing m rest
  end.

Definition macPaths (m : Machine) : list string :=
  ["/Applications/Google Chrome.app/Contents/MacOS/Google Chrome";
   join m (homedir m) "Applications/Google Chrome.app/Contents/MacOS/Google Chrome"].

Definition chromePaths (m : Machine) : list string :=
  [interpolate (getenv m "PROGRAMFILES") ++ "\Google\Chrome\Application\chrome.exe";
   interpolate (getenv m "PROGRAMFILES(X86)") ++ "\Google\Chrome\Application\chrome.exe";
   join m (homedir m) "AppData\Local\Google\Chrome\Application\chrome.exe"]%string.

Definition commonBrowsers (m : Machine) : list string :=
  ["C:\Program Files\Microsoft\Edge\Application\msedge.exe";
   "C:\Program Files (x86)\Microsoft\Edge\Application\msedge.exe";
   join m (homedir m) "AppData\Local\Microsoft\Edge\Application\msedge.exe";
   "C:\Program Files\Mozilla Firefox\firefox.exe"].

(** [async getBrowserPath()] *)
Definition getBrowserPath (m : Machine) : Completion string :=
  if negb (String.eqb (platform m) "win32") then
    match first_existing m (macPaths m) with
    | Some p => Normal p
    | None => Throw {| message := "Chrome no encontrado en macOS" |}
    end
  else
    match first_existing m (chromePaths m) with
    | Some p => Normal p
    | None =>
        match getDefaultBrowserWindows m with
        | Some (String c t) => Normal (String c t)
        | _ =>
            match first_existing m (commonBrowsers m) with
            | Some p => Normal p
            | None =>
                Throw {| message :=
                  "No se encontró ningún navegador compatible instalado" |}
            end
        end
    end.

(** *** Properties *)

Lemma first_existing_Some m paths p :
  first_existing m paths = Some p -> In p paths /\ existsSync m p = true.
Proof.
  induction paths as [|q rest IH]; cbn; [discriminate|].
  destruct (existsSync m q) eqn:E.
  - intros [= <-]. by split; [left|].
  - intros H. destruct (IH H). by split; [right|].
Qed.

Lemma first_existing_None m paths :
  first_existing m paths = None <->
  forall p, In p paths -> existsSync m p = false.
Proof.
  induction paths as [|q rest IH]; cbn.
  - split; [by intros _ p [] | done].
  - destruct (existsSync m q) eqn:E.
    + split; [discriminate|]. intros H. specialize (H q (or_introl eq_refl)).
      congruence.
    + rewrite IH. split.
      * intros H p [<- | Hp]; [done | by apply H].
      * intros H p Hp. apply H. by right.
Qed.

(** On every platform other than win32 (Linux included) only the two
    macOS locations of Chrome are tried: the path returned is the first
    of them that exists, and when neither exists the error says that
    Chrome was not found on macOS. *)
Theorem getBrowserPath_off_windows m :
  platform m <> "win32" ->
  (forall p, getBrowserPath m = Normal p ->
             In p (macPaths m) /\ existsSync m p = true) /\
  ((forall p, In p (macPaths m) -> existsSync m p = false) ->
   getBrowserPath m = Throw {| message := "Chrome no encontrado en macOS" |}).
Proof.
  intros H. apply String.eqb_neq in H. unfold getBrowserPath. rewrite H. cbn [negb].
  split.
  - intros p. destruct (first_existing m (macPaths m)) as [q|] eqn:F; [|discriminate].
    intros [= <-]. by apply first_existing_Some.
  - intros Hn. apply first_existing_None in Hn. by rewrite Hn.
Qed.

Definition linux_box : Machine :=
  {| platform := "linux";
     homedir := "/home/user";
     getenv := fun _ => None;
     existsSync := fun p => String.eqb p "/usr/bin/google-chrome";
     join := fun a b => (a ++ "/" ++ b)%string;
     normalize := fun s => s;
     reg_user_choice := Throw {| message := "reg: not found" |};
     reg_open_command := fun _ => Throw {| message := "reg: not found" |} |}.

Lemma getBrowserPath_off_windows_witness :
  platform linux_box <> "win32" /\
  getBrowserPath linux_box = Throw {| message := "Chrome no encontrado en macOS" |}.
Proof.
  assert (H : platform linux_box <> "win32") by discriminate.
  split; [exact H|].
  apply (proj2 (getBrowserPath_off_windows linux_box H)).
  intros p [<- | [<- | []]]; reflexivity.
Defined.

(** On win32 a Chrome that exists is preferred to everything else; and
    every path returned exists on the disk, except the path of the
    default browser, which is returned as the registry gives it,
    without a check. *)
Theorem getBrowserPath_on_windows m :
  platform m = "win32" ->
  (forall p, first_existing m (chromePaths m) = Some p ->
             getBrowserPath m = Normal p) /\
  (forall p, getBrowserPath m = Normal p ->
     (In p (chromePaths m ++ commonBrowsers m) /\ existsSync m p = true) \/
     (first_existing m (chromePaths m) = None /\
      getDefaultBrowserWindows m = Some p /\ p <> "")).
Proof.
  intros H. unfold getBrowserPath. rewrite H.
  change (negb (String.eqb "win32" "win32")) with false. cbv iota.
  split.
  - by intros p ->.
  - intros p. destruct (first_existing m (chromePaths m)) as [q|] eqn:F.
    + intros [= <-]. left. destruct (first_existing_Some _ _ _ F).
      split; [apply in_or_app; by left | done].
    + destruct (getDefaultBrowserWindows m) as [[|c t]|] eqn:D.
      * destruct (first_existing m (commonBrowsers m)) as [q|] eqn:G; [|discriminate].
        intros [= <-]. left. destruct (first_existing_Some _ _ _ G).
        split; [apply in_or_app; by right | done].
      * intros [= <-]. right. by repeat split.
      * destruct (first_existing m (commonBrowsers m)) as [q|] eqn:G; [|discriminate].
        intros [= <-]. left. destruct (first_existing_Some _ _ _ G).
        split; [apply in_or_app; by right | done].
Qed.

(** A Windows machine without Chrome whose default browser is Edge,
    installed under "C:\Program Files (x86)". *)
Definition nl : string := String (ascii_of_nat 10) "".

Definition edge_box : Machine :=
  {| platform := "win32";
     homedir := "C:\Users\user";
     getenv := fun _ => Some "C:\Program Files";
     existsSync := fun p =>
       String.eqb p "C:\Program Files (x86)\Microsoft\Edge\Application\msedge.exe";
     join := fun a b => (a ++ "\" ++ b)%string;
     normalize := fun s => s;
     reg_user_choice :=
       Normal (nl ++ "HKEY_CURRENT_USER\Software\Microsoft\Windows\Shell\Associations\UrlAssociations\http\UserChoice"
                 ++ nl ++ "    ProgId    REG_SZ    MSEdgeHTM" ++ nl)%string;
     reg_open_command := fun id =>
       if String.eqb id "MSEdgeHTM"
       then Normal (nl ++ "HKEY_CLASSES_ROOT\MSEdgeHTM\shell\open\command" ++ nl
                      ++ "    (Default)    REG_SZ    "
                      ++ String dquote "C:\Program Files (x86)\Microsoft\Edge\Application\msedge.exe"
                      ++ String dquote " --single-argument %1" ++ nl)%string
       else Throw {| message := "ERROR: The system was unable to find the specified registry key or value." |} |}.

Lemma getBrowserPath_on_windows_witness :
  platform edge_box = "win32" /\
  getBrowserPath edge_box = Normal "C:\Program" /\
  existsSync edge_box "C:\Program" = false /\
  ((In "C:\Program" (chromePaths edge_box ++ commonBrowsers edge_box) /\
    existsSync edge_box "C:\Program" = true) \/
   (first_existing edge_box (chromePaths edge_box) = None /\
    getDefaultBrowserWindows edge_box = Some "C:\Program" /\ "C:\Program" <> "")).
Proof.
  split; [reflexivity|]. split; [vm_compute; reflexivity|]. split; [reflexivity|].
  apply (proj2 (getBrowserPath_on_windows edge_box eq_refl) "C:\Program").
  vm_compute. reflexivity.
Defined.

Fixpoint count (c : ascii) (s : string) : nat :=
  match s with
  | EmptyString => 0
  | String a t => (if Ascii.eqb a c then 1 else 0) + count c t
  end.

Lemma count_before_same c s : count c (before (String c "") s) = 0.
Proof.
  induction s as [|a t IH]; [done|].
  cbn [before String.prefix]. destruct (ascii_dec c a) as [->|N].
  - by destruct t.
  - cbn [count]. apply Ascii.eqb_neq in N. rewrite Ascii.eqb_sym in N.
    by rewrite N, IH.
Qed.

Lemma count_before_le c sep s : count c (before sep s) <= count c s.
Proof.
  induction s as [|a t IH]; cbn [before].
  - destruct (String.prefix sep ""); cbn; lia.
  - destruct (String.prefix sep (String a t)); cbn [count]; lia.
Qed.

Lemma count_remove_all c s : count c (remove_all c s) = 0.
Proof.
  induction s as [|a t IH]; [done|]. cbn [remove_all].
  destruct (Ascii.eqb a c) eqn:E; [done|]. cbn [count]. by rewrite E.
Qed.

(** Whatever the registry answers, the path [getDefaultBrowserWindows]
    returns is [path.normalize] of a text without a space and without a
    double quote: the command line of the default browser is cut at its
    first space, so that a browser installed under "C:\Program Files" is
    reported as "C:\Program". *)
Theorem getDefaultBrowserWindows_cut_at_space m p :
  getDefaultBrowserWindows m = Some p ->
  exists x, p = normalize m x /\ count " " x = 0 /\ count dquote x = 0.
Proof.
  unfold getDefaultBrowserWindows.
  destruct (reg_user_choice m) as [regQuery|e]; [|discriminate].
  destruct (second_piece "REG_SZ" regQuery) as [piece|]; [|discriminate].
  destruct (reg_open_command m (trim piece)) as [association|e]; [|discriminate].
  destruct (second_piece "REG_SZ" association) as [piece'|]; [|discriminate].
  intros [= <-]. eexists. split; [reflexivity|]. split.
  - apply count_before_same.
  - pose proof (count_before_le dquote " " (remove_all dquote (trim piece'))) as H.
    rewrite count_remove_all in H. lia.
Qed.

Lemma getDefaultBrowserWindows_cut_at_space_witness :
  getDefaultBrowserWindows edge_box = Some "C:\Program" /\
  exists x, "C:\Program" = normalize edge_box x /\
            count " " x = 0 /\ count dquote x = 0.
Proof.
  assert (H : getDefaultBrowserWindows edge_box = Some "C:\Program")
    by (vm_compute; reflexivity).
  split; [exact H|].
  exact (getDefaultBrowserWindows_cut_at_space edge_box "C:\Program" H).
Defined.

End BrowserPath.
